(** * Shade-optimised pedestrian routing: the dashboard, the route
      calculator and the edge cost model

    A shallow embedding of [dashboard.py] (the Shiny dashboard: the table of
    example routes, the estimated result, the efficiency rating and the
    renderers) and of [app.py] (the Streamlit tool: the two shortest-path
    queries and the route comparison of [calculate_route_from_coords]).

    Python numbers are idealised as exact rationals ([Q]); the only
    non-finite float the code builds, [float('inf')], is a constructor of
    its own.  Dictionaries are [gmap]s, exceptions are values of an error
    monad, [np.random] is a stream of unit samples threaded as state. *)

From Stdlib Require Import ZArith QArith Qround Lqa Lia String List.
From stdpp Require Import gmap strings.

Open Scope Q_scope.

(** ** Python values: numbers, exceptions *)

Module Py.

(** The exceptions the modelled code can meet. *)
Inductive exn : Type :=
| ZeroDivisionError
| KeyError
| NetworkXNoPath
| NodeNotFound
| InvalidParameter.

(** A computation that returns or raises. *)
Inductive res (A : Type) : Type :=
| Ok (a : A)
| Raise (e : exn).
Arguments Ok {A} a.
Arguments Raise {A} e.

Definition bind {A B : Type} (k : A -> res B) (m : res A) : res B :=
  match m with
  | Ok a => k a
  | Raise e => Raise e
  end.

(** [d[k]] on a dictionary: [KeyError] when the key is missing. *)
Definition getitem {A : Type} (o : option A) : res A :=
  match o with
  | Some a => Ok a
  | None => Raise KeyError
  end.

(** [x < y] on numbers, as a boolean. *)
Definition Qltb (x y : Q) : bool := (Qnum x * QDen y <? Qnum y * QDen x)%Z.

(** [x / y]: true division, [ZeroDivisionError] on a zero divisor. *)
Definition div (x y : Q) : res Q :=
  if Qeq_bool y 0 then Raise ZeroDivisionError else Ok (x / y).

(** [int(x)]: truncation towards zero. *)
Definition int (x : Q) : Z := Z.quot (Qnum x) (QDen x).

(** A float that may be [float('inf')]. *)
Inductive float : Type :=
| Fin (q : Q)
| Inf.

End Py.

#[global] Instance res_bind : MBind Py.res := @Py.bind.

(** ** dashboard.py *)

Module Dashboard.
Import Py.

(** One entry of [EXAMPLE_ROUTES], also the shape of [est_result]. *)
Record route : Type := {
  shortest_length : Q;
  shortest_shade : Q;
  shadiest_length : Q;
  shadiest_shade : Q;
  detour_pct : Q;
  shade_improvement : Q
}.

Definition key : Type := (string * string * string)%type.

Definition EXAMPLE_ROUTES : gmap key route :=
  list_to_map [
    (("Penn Campus", "40th St", "summer_midday")%string,
     {| shortest_length := 315; shortest_shade := 0.41;
        shadiest_length := 352; shadiest_shade := 0.57;
        detour_pct := 11.7; shade_improvement := 0.16 |});
    (("Drexel Campus", "34th St", "summer_evening")%string,
     {| shortest_length := 524; shortest_shade := 0.21;
        shadiest_length := 591; shadiest_shade := 0.65;
        detour_pct := 12.8; shade_improvement := 0.44 |});
    (("Clark Park", "46th St", "summer_morning")%string,
     {| shortest_length := 1239; shortest_shade := 0.59;
        shadiest_length := 1424; shadiest_shade := 0.67;
        detour_pct := 14.9; shade_improvement := 0.08 |})
  ].

(** *** np.random

    The generator is a stream of samples of the unit interval; each draw
    takes the head.  [uniform(lo, hi)] is [lo + (hi - lo) * u] and
    [randint(lo, hi)] is [lo + floor ((hi - lo) * u)]. *)
Definition generator : Type := nat -> Q.

Definition Rand (A : Type) : Type := generator -> A * generator.

Definition ret {A : Type} (a : A) : Rand A := fun g => (a, g).

Definition rbind {A B : Type} (k : A -> Rand B) (m : Rand A) : Rand B :=
  fun g => let (a, g') := m g in k a g'.

#[local] Instance Rand_bind : MBind Rand := @rbind.

Definition random_sample : Rand Q :=
  fun g => (g O, fun n => g (S n)).

Definition uniform (lo hi : Q) : Rand Q :=
  u ← random_sample; ret (lo + (hi - lo) * u).

Definition randint (lo hi : Z) : Rand Z :=
  u ← random_sample; ret (lo + Qfloor (inject_Z (hi - lo) * u))%Z.

(** The samples a generator hands out are in [0, 1). *)
Definition unit_samples (g : generator) : Prop :=
  forall n : nat, 0 <= g n /\ g n < 1.

(** *** server: the reactive value and the Calculate effect *)

Inductive notification : Type :=
| RouteCalculated
| EstimatedResult.

Record state : Type := {
  result : option route;
  rng : generator;
  shown : list notification
}.

(** The [else] branch of the effect: "Generate reasonable estimate". *)
Definition estimate : Rand route :=
  sl ← randint 300 1200;
  ss ← uniform 0.2 0.6;
  dp ← uniform 8 15;
  si ← uniform 0.15 0.40;
  ret {| shortest_length := inject_Z sl;
         shortest_shade := ss;
         shadiest_length := inject_Z (int (inject_Z sl * (1 + dp / 100)));
         shadiest_shade := ss + si;
         detour_pct := dp;
         shade_improvement := si |}.

(** The effect run on a click of "Calculate Route". *)
Definition calculate (origin destination scenario : string) (s : state) : state :=
  let k : key := (origin, destination, scenario) in
  match EXAMPLE_ROUTES !! k with
  | Some r =>
      {| result := Some r; rng := rng s; shown := RouteCalculated :: shown s |}
  | None =>
      let (est_result, g') := estimate (rng s) in
      {| result := Some est_result; rng := g'; shown := EstimatedResult :: shown s |}
  end.

Definition init (g : generator) : state :=
  {| result := None; rng := g; shown := [] |}.

(** The states a session reaches: any number of clicks, any selections. *)
Inductive reachable (g : generator) : state -> Prop :=
| reach_init : reachable g (init g)
| reach_click (s : state) (origin destination scenario : string) :
    reachable g s -> reachable g (calculate origin destination scenario s).

(** The detour a stored result can have: one of the three example routes'
    or a draw of [uniform(8, 15)]. *)
Definition detour_stored (r : route) : Prop :=
  detour_pct r = 11.7 \/ detour_pct r = 12.8 \/ detour_pct r = 14.9
  \/ (8 <= detour_pct r /\ detour_pct r < 15).

(** *** The efficiency and its rating *)

Inductive rating : Type := EXCELLENT | GOOD | MODERATE | LOW.

Inductive color : Type := success | info | warning | danger.

(** [r['shade_improvement'] / (r['detour_pct'] / 100) if r['detour_pct'] > 0 else 0] *)
Definition efficiency (r : route) : res Q :=
  if Qltb 0 (detour_pct r)
  then (d ← div (detour_pct r) 100; div (shade_improvement r) d)
  else Ok 0.

(** The if-chain of [results_message]. *)
Definition results_message_rating (efficiency : Q) : rating * color :=
  if Qle_bool 3.0 efficiency then (EXCELLENT, success)
  else if Qle_bool 2.0 efficiency then (GOOD, info)
  else if Qle_bool 1.0 efficiency then (MODERATE, warning)
  else (LOW, danger).

(** The if-chain of [analysis_text]. *)
Definition analysis_text_rating (efficiency : Q) : rating :=
  if Qle_bool 3.0 efficiency then EXCELLENT
  else if Qle_bool 2.0 efficiency then GOOD
  else if Qle_bool 1.0 efficiency then MODERATE
  else LOW.

(** What [results_message] computes before it formats the summary. *)
Record summary : Type := {
  detour_m : Q;
  detour_min : Q;
  summary_efficiency : Q;
  summary_rating : rating;
  summary_color : color
}.

Definition results_message (s : state) : res (option summary) :=
  match result s with
  | None => Ok None
  | Some r =>
      let detour_m := shadiest_length r - shortest_length r in
      d ← div detour_m 1.4;
      detour_min ← div d 60;
      e ← efficiency r;
      let (rt, c) := results_message_rating e in
      Ok (Some {| detour_m := detour_m; detour_min := detour_min;
                  summary_efficiency := e; summary_rating := rt;
                  summary_color := c |})
  end.

(** The "Routing Efficiency" cell of [metrics_table]:
    [r['shade_improvement'] / (r['detour_pct']/100)], unguarded. *)
Definition metrics_table (s : state) : res (option Q) :=
  match result s with
  | None => Ok None
  | Some r =>
      d ← div (detour_pct r) 100;
      e ← div (shade_improvement r) d;
      Ok (Some e)
  end.

(** The efficiency computed at the head of [tradeoff_plot], unguarded. *)
Definition tradeoff_plot (s : state) : res (option Q) :=
  match result s with
  | None => Ok None
  | Some r =>
      d ← div (detour_pct r) 100;
      e ← div (shade_improvement r) d;
      Ok (Some e)
  end.

End Dashboard.

(** ** networkx: the multigraph and [nx.shortest_path] *)

Module Nx.
Import Py.

(** A [MultiDiGraph]: the node table ([G.nodes[n]] holds the coordinates
    [x], [y]) and the adjacency [G[u][v][key]], an attribute dictionary per
    parallel edge.  Every edge's endpoints are nodes of the table. *)
Record graph : Type := {
  node : gmap Z (Q * Q);
  adj : gmap Z (gmap Z (gmap Z (gmap string Q)))
}.

Definition Qmin (a b : Q) : Q := if Qle_bool a b then a else b.

(** The weight of the step [u -> v] on a multigraph:
    [min(attr.get(weight, 1) for attr in d.values())]. *)
Definition weight_function (weight : string) (d : gmap Z (gmap string Q)) : option Q :=
  foldr (fun kv best =>
           let w := default 1 (snd kv !! weight) in
           Some (from_option (Qmin w) w best))
        None (map_to_list d).

(** The frontier node with the least tentative distance. *)
Definition extract_min (dist : gmap Z Q) (seen : gset Z) : option (Z * Q) :=
  foldr (fun vd best =>
           if bool_decide (fst vd ∈ seen) then best
           else match best with
                | None => Some vd
                | Some b => if Qle_bool (snd vd) (snd b) then Some vd else best
                end)
        None (map_to_list dist).

(** Relaxation of the steps out of [u], reached at distance [du]. *)
Definition relax (weight : string) (seen : gset Z) (u : Z) (du : Q)
    (st : gmap Z Q * gmap Z Z) (e : Z * gmap Z (gmap string Q)) : gmap Z Q * gmap Z Z :=
  let (v, d) := e in
  if bool_decide (v ∈ seen) then st
  else match weight_function weight d with
       | None => st
       | Some w =>
           let dv := du + w in
           match fst st !! v with
           | Some old =>
               if Qltb dv old then (<[v:=dv]> (fst st), <[v:=u]> (snd st)) else st
           | None => (<[v:=dv]> (fst st), <[v:=u]> (snd st))
           end
       end.

(** Label-setting search: the predecessor links once [target] is popped,
    [None] when the frontier empties first.  Each round settles one node;
    [fuel] bounds the number of rounds, and [shortest_path] supplies one
    more than the number of nodes. *)
Fixpoint search (fuel : nat) (G : graph) (weight : string) (target : Z)
    (dist : gmap Z Q) (pred : gmap Z Z) (seen : gset Z) : option (gmap Z Z) :=
  match fuel with
  | O => None
  | S fuel' =>
      match extract_min dist seen with
      | None => None
      | Some (u, du) =>
          if bool_decide (u = target) then Some pred
          else
            let seen' := {[u]} ∪ seen in
            let st := foldl (relax weight seen' u du) (dist, pred)
                            (map_to_list (default ∅ (adj G !! u))) in
            search fuel' G weight target (fst st) (snd st) seen'
      end
  end.

(** The node path read back along the predecessor links. *)
Fixpoint walk_back (fuel : nat) (pred : gmap Z Z) (source v : Z) (acc : list Z) : list Z :=
  if bool_decide (v = source) then v :: acc
  else match fuel, pred !! v with
       | S fuel', Some p => walk_back fuel' pred source p (v :: acc)
       | _, _ => v :: acc
       end.

(** [nx.shortest_path(G, source, target, weight=weight)]: the list of nodes
    of a least-weight path; [NodeNotFound] when an end point is not in [G],
    [[source]] when the end points coincide, [NetworkXNoPath] when the
    target is not reached. *)
Definition shortest_path (G : graph) (source target : Z) (weight : string) : res (list Z) :=
  if negb (bool_decide (source ∈ dom (node G))) then Raise NodeNotFound
  else if negb (bool_decide (target ∈ dom (node G))) then Raise NodeNotFound
  else if bool_decide (source = target) then Ok [source]
  else
    let n := S (size (node G)) in
    match search n G weight target {[source := 0]} ∅ ∅ with
    | Some pred => Ok (walk_back n pred source target [])
    | None => Raise NetworkXNoPath
    end.

End Nx.

(** ** app.py: the Streamlit route calculator *)

Module App.
Import Py.

(** A row of [septa_df]: the stop's name and the point of its geometry. *)
Record stop : Type := {
  name : string;
  geometry_x : Q;
  geometry_y : Q
}.

(** The dictionary [results] built by [calculate_route_from_coords]. *)
Record results : Type := {
  origin_lat : Q;
  origin_lon : Q;
  dest_name : string;
  dest_lat : Q;
  dest_lon : Q;
  shortest_path : list Z;
  shortest_length_ft : Q;
  shortest_length_m : Q;
  shortest_shade_score : Q;
  shadiest_path : list Z;
  shadiest_length_ft : Q;
  shadiest_length_m : Q;
  shadiest_shade_score : Q;
  length_increase_ft : Q;
  length_increase_m : Q;
  length_increase_pct : Q;
  shade_improvement : Q;
  shade_improvement_pct : Q;
  shade_per_meter_detour : float
}.

(** [graph[u][v][0]] *)
Definition edge0 (graph : Nx.graph) (u v : Z) : res (gmap string Q) :=
  gu ← getitem (Nx.adj graph !! u);
  guv ← getitem (gu !! v);
  getitem (guv !! 0%Z).

(** The loop over [range(len(path) - 1)]: the running length and the running
    length-weighted shade, started from [acc]. *)
Fixpoint route_totals (graph : Nx.graph) (path : list Z) (acc : Q * Q) : res (Q * Q) :=
  match path with
  | [] => Ok acc
  | u :: rest =>
      match rest with
      | [] => Ok acc
      | v :: _ =>
          edge_data ← edge0 graph u v;
          edge_length ← getitem (edge_data !! "length"%string);
          route_totals graph rest
            (fst acc + edge_length,
             snd acc + default 0 (edge_data !! "shade_score"%string) * edge_length)
      end
  end.

(** The segments a node path stands for in the loop: for each step the
    length of [graph[u][v][0]] and its shade score, if it has one. *)
Fixpoint segments (graph : Nx.graph) (path : list Z) : res (list (Q * option Q)) :=
  match path with
  | [] => Ok []
  | u :: rest =>
      match rest with
      | [] => Ok []
      | v :: _ =>
          edge_data ← edge0 graph u v;
          edge_length ← getitem (edge_data !! "length"%string);
          segs ← segments graph rest;
          Ok ((edge_length, edge_data !! "shade_score"%string) :: segs)
      end
  end.

(** Σ length_i *)
Definition total_length (segs : list (Q * option Q)) : Q :=
  foldr (fun s acc => fst s + acc) 0 segs.

(** Σ length_i × shade_i, a segment without a score counting for 0. *)
Definition weighted_shade (segs : list (Q * option Q)) : Q :=
  foldr (fun s acc =>
           fst s * (match snd s with Some x => x | None => 0 end) + acc)
        0 segs.

(** [shade_weighted / length if length > 0 else 0] *)
Definition avg_shade (shade_weighted length : Q) : res Q :=
  if Qltb 0 length then div shade_weighted length else Ok 0.

(** [septa_df[septa_df['name'] == destination_stop_name]] *)
Definition dest_stops (septa_df : list stop) (destination_stop_name : string) : list stop :=
  filter (fun st => name st = destination_stop_name) septa_df.

Section Calculate.

(** [ox.nearest_nodes(graph, X, Y)], the snapping of a point to a node. *)
Variable nearest_nodes : Nx.graph -> Q -> Q -> Z.

(** The body of the [try] block. *)
Definition calculate_body (lat lon : Q) (destination_stop_name : string)
    (graph : Nx.graph) (septa_df : list stop) : res (option results) :=
  let origin_node := nearest_nodes graph lon lat in
  match dest_stops septa_df destination_stop_name with
  | [] => Ok None
  | dest_stop :: _ =>
      let dest_node := nearest_nodes graph (geometry_x dest_stop) (geometry_y dest_stop) in
      (* Calculate shortest route *)
      shortest_path ← Nx.shortest_path graph origin_node dest_node "length";
      shortest ← route_totals graph shortest_path (0, 0);
      let shortest_length := fst shortest in
      shortest_avg_shade ← avg_shade (snd shortest) shortest_length;
      (* Calculate shadiest route *)
      shadiest_path ← Nx.shortest_path graph origin_node dest_node "shade_weight";
      shadiest ← route_totals graph shadiest_path (0, 0);
      let shadiest_length := fst shadiest in
      shadiest_avg_shade ← avg_shade (snd shadiest) shadiest_length;
      (* Calculate comparison metrics *)
      let length_increase_ft := shadiest_length - shortest_length in
      let length_increase_m := length_increase_ft * 0.3048 in
      length_increase_pct ←
        (if Qltb 0 shortest_length
         then (q ← div length_increase_ft shortest_length; Ok (q * 100))
         else Ok 0);
      let shade_improvement := shadiest_avg_shade - shortest_avg_shade in
      shade_improvement_pct ←
        (if Qltb 0 shortest_avg_shade
         then (q ← div shade_improvement shortest_avg_shade; Ok (q * 100))
         else Ok 0);
      shade_per_meter_detour ←
        (if Qltb 0 length_increase_m
         then (q ← div shade_improvement length_increase_m; Ok (Fin q))
         else Ok Inf);
      Ok (Some {|
        origin_lat := lat;
        origin_lon := lon;
        dest_name := name dest_stop;
        dest_lat := geometry_y dest_stop;
        dest_lon := geometry_x dest_stop;
        shortest_path := shortest_path;
        shortest_length_ft := shortest_length;
        shortest_length_m := shortest_length * 0.3048;
        shortest_shade_score := shortest_avg_shade;
        shadiest_path := shadiest_path;
        shadiest_length_ft := shadiest_length;
        shadiest_length_m := shadiest_length * 0.3048;
        shadiest_shade_score := shadiest_avg_shade;
        length_increase_ft := length_increase_ft;
        length_increase_m := length_increase_m;
        length_increase_pct := length_increase_pct;
        shade_improvement := shade_improvement;
        shade_improvement_pct := shade_improvement_pct;
        shade_per_meter_detour := shade_per_meter_detour
      |})
  end.

(** What a call leaves behind: the value returned and the exception shown
    through [st.error], if any. *)
Record outcome : Type := {
  returned : option results;
  st_error : option exn
}.

(** The [try] block with its two handlers: [except nx.NetworkXNoPath] returns
    [None]; [except Exception] shows the error and returns [None]. *)
Definition calculate_route_from_coords (lat lon : Q) (destination_stop_name : string)
    (graph : Nx.graph) (septa_df : list stop) : outcome :=
  match calculate_body lat lon destination_stop_name graph septa_df with
  | Ok r => {| returned := r; st_error := None |}
  | Raise NetworkXNoPath => {| returned := None; st_error := None |}
  | Raise e => {| returned := None; st_error := Some e |}
  end.

End Calculate.

(** *** The page shown after "Calculate Routes" *)

Inductive verdict : Type :=
| ExcellentTradeoff
| GoodTradeoff
| FairTradeoff
| MarginalTradeoff.

(** The "Routing Efficiency" box. *)
Inductive efficiency_box : Type :=
| Perfect
| Tradeoff (efficiency : Q) (v : verdict).

Definition routing_efficiency (route_results : results) : efficiency_box :=
  match shade_per_meter_detour route_results with
  | Inf => Perfect
  | Fin efficiency =>
      Tradeoff efficiency
        (if Qltb 0.01 efficiency then ExcellentTradeoff
         else if Qltb 0.005 efficiency then GoodTradeoff
         else if Qltb 0.001 efficiency then FairTradeoff
         else MarginalTradeoff)
  end.

Inductive page : Type :=
| CouldNotCalculate
| RoutesCalculated (route_results : results) (box : efficiency_box).

Definition show (o : outcome) : page :=
  match returned o with
  | None => CouldNotCalculate
  | Some route_results => RoutesCalculated route_results (routing_efficiency route_results)
  end.

End App.

(** ** The edge cost model *)

Module Engine.
Import Py.

(** An edge of the Graph Store: its end points, its length and its shade
    score per scenario. *)
Record edge : Type := {
  from_node : Z;
  to_node : Z;
  length : Q;
  shade_scores : gmap string Q
}.

(** An edge with no score for the scenario has shade score 0. *)
Definition shade (e : edge) (scenario : string) : Q :=
  default 0 (shade_scores e !! scenario).

Definition default_alpha : Q := 0.3.

(** Modelled from the spec: the Weight Calculator.  The code that writes the
    [shade_weight] attribute of the stored network is not among the sources;
    the dashboard quotes it as [cost = length × (1 - 0.3 × shade)].  The
    cost is [length × (1 − α × shade)]; it fails with [InvalidParameter]
    when α is outside [0, 1] or the edge has a negative length. *)
Definition cost (e : edge) (scenario : string) (alpha : Q) : res Q :=
  if Qltb alpha 0 || Qltb 1 alpha || Qltb (length e) 0
  then Raise InvalidParameter
  else Ok (length e * (1 - alpha * shade e scenario)).

End Engine.

(** ** dashboard.py: the analysis text and the plots *)

Module DashboardViews.
Import Py Dashboard.

Definition SCENARIOS : gmap string string :=
  list_to_map [
    ("summer_morning", "Summer Morning (8 AM)");
    ("summer_midday", "Summer Midday (12 PM)");
    ("summer_evening", "Summer Evening (5 PM)");
    ("winter_morning", "Winter Morning (8 AM)");
    ("winter_midday", "Winter Midday (12 PM)");
    ("winter_evening", "Winter Evening (5 PM)")
  ]%string.

(** What [analysis_text] computes for its report: the scenario label
    [SCENARIOS[input.scenario()]], the extra distance and time, the
    efficiency with its rating, and [int(detour_m/80)] city blocks. *)
Record analysis : Type := {
  scenario_label : string;
  analysis_detour_m : Q;
  analysis_detour_min : Q;
  analysis_efficiency : Q;
  analysis_rating : rating;
  blocks : Z
}.

Definition analysis_text (s : state) (scenario : string) : res (option analysis) :=
  match result s with
  | None => Ok None
  | Some r =>
      let detour_m := shadiest_length r - shortest_length r in
      d ← div detour_m 1.4;
      detour_min ← div d 60;
      efficiency ← efficiency r;
      let rating := analysis_text_rating efficiency in
      label ← getitem (SCENARIOS !! scenario);
      b ← div detour_m 80;
      Ok (Some {| scenario_label := label;
                  analysis_detour_m := detour_m;
                  analysis_detour_min := detour_min;
                  analysis_efficiency := efficiency;
                  analysis_rating := rating;
                  blocks := int b |})
  end.

(** [max(a, b)] on numbers: [b] when it is greater, else [a]. *)
Definition max (a b : Q) : Q := if Qltb a b then b else a.

(** The drawing of [tradeoff_plot]: the point scattered, the place of the
    annotation text, and the limits of the two axes. *)
Record tradeoff : Type := {
  point : Q * Q;
  xytext : Q * Q;
  xlim : Q * Q;
  ylim : Q * Q
}.

Definition tradeoff_axes (r : route) : tradeoff :=
  {| point := (detour_pct r, shade_improvement r * 100);
     xytext := (detour_pct r + 3, shade_improvement r * 100 + 5);
     xlim := (0, max 20 (detour_pct r + 5));
     ylim := (0, max 50 (shade_improvement r * 100 + 10)) |}.

(** The detour in percent as the two stored lengths give it. *)
Definition detour_from_lengths (r : route) : Q :=
  (shadiest_length r - shortest_length r) / shortest_length r * 100.

(** What the six numbers of a stored result have to do with each other. *)
Definition consistent (r : route) : Prop :=
  0 < shortest_length r /\
  shortest_length r <= shadiest_length r /\
  0 <= shortest_shade r /\
  shortest_shade r <= shadiest_shade r /\
  shadiest_shade r <= 1 /\
  shade_improvement r == shadiest_shade r - shortest_shade r /\
  - (1 # 3) < detour_pct r - detour_from_lengths r /\
  detour_pct r - detour_from_lengths r < 1 # 3.

(** The order of the ratings, LOW least. *)
Definition rank (x : rating) : nat :=
  match x with
  | LOW => 0
  | MODERATE => 1
  | GOOD => 2
  | EXCELLENT => 3
  end.

End DashboardViews.

(** ** app.py: the map and the page below the metrics *)

Module AppViews.
Import Py App.
Import Stdlib.Strings.Ascii.

(** [path_to_coords(path, graph)]: the [[lat, lon]] pair, that is [y] then
    [x], of each node of the path; [graph.nodes[node]] raises KeyError for a
    node the graph does not have. *)
Fixpoint path_to_coords (path : list Z) (graph : Nx.graph) : res (list (Q * Q)) :=
  match path with
  | [] => Ok []
  | node :: rest =>
      node_data ← getitem (Nx.node graph !! node);
      coords ← path_to_coords rest graph;
      Ok ((snd node_data, fst node_data) :: coords)
  end.

(** The lines [create_route_map] draws and the bounds it fits the map to:
    [shortest_coords], [shadiest_coords] and [all_coords].  The background
    edges it draws first take their colour from [edge_color], below. *)
Record route_lines : Type := {
  shortest_coords : list (Q * Q);
  shadiest_coords : list (Q * Q);
  all_coords : list (Q * Q)
}.

Definition create_route_map (route_results : results) (graph : Nx.graph) : res route_lines :=
  shortest_coords ← path_to_coords (shortest_path route_results) graph;
  shadiest_coords ← path_to_coords (shadiest_path route_results) graph;
  Ok {| shortest_coords := shortest_coords;
        shadiest_coords := shadiest_coords;
        all_coords := shortest_coords ++ shadiest_coords |}.

(** The "Shade Quality" line of a route card. *)
Inductive quality : Type := QExcellent | QGood | QModerate | QPoor.

Definition shade_quality (shade_score : Q) : quality :=
  if Qltb 0.6 shade_score then QExcellent
  else if Qltb 0.4 shade_score then QGood
  else if Qltb 0.2 shade_score then QModerate
  else QPoor.

(** The "Recommendation" box. *)
Inductive recommendation : Type :=
| TakeShadiest
| ConsiderShadiest
| SignificantDetour
| StickWithShortest.

Definition recommend (route_results : results) : recommendation :=
  if Qltb (length_increase_pct route_results) 5 then TakeShadiest
  else if Qltb (length_increase_pct route_results) 15
          && Qltb 0.15 (shade_improvement route_results) then ConsiderShadiest
  else if Qltb (length_increase_pct route_results) 25
          && Qltb 0.25 (shade_improvement route_results) then SignificantDetour
  else StickWithShortest.

(** The order of the shade qualities and of the verdicts, the poorest least. *)
Definition quality_rank (q : quality) : nat :=
  match q with
  | QPoor => 0
  | QModerate => 1
  | QGood => 2
  | QExcellent => 3
  end.

Definition verdict_rank (v : verdict) : nat :=
  match v with
  | MarginalTradeoff => 0
  | FairTradeoff => 1
  | GoodTradeoff => 2
  | ExcellentTradeoff => 3
  end.

(** The digits of [format(n, 'x')] for [n >= 0], most significant first. *)
Definition hex_digit (d : Z) : ascii :=
  nth (Z.to_nat d)
    ["0"; "1"; "2"; "3"; "4"; "5"; "6"; "7"; "8"; "9"; "a"; "b"; "c"; "d"; "e"; "f"]%char
    "0"%char.

Fixpoint hex_digits (fuel : nat) (n : Z) : string :=
  match fuel with
  | O => EmptyString
  | S fuel' =>
      if (n <? 16)%Z then String (hex_digit n) EmptyString
      else (hex_digits fuel' (n / 16) ++ String (hex_digit (n mod 16)) EmptyString)%string
  end.

Definition hex (n : Z) : string := hex_digits (S (Z.to_nat (Z.log2 n))) n.

(** Zeros in front, up to [width] characters. *)
Definition zfill (width : nat) (s : string) : string :=
  (string_of_list_ascii (repeat "0"%char (width - String.length s)) ++ s)%string.

(** [f'{n:02x}']: lower-case hexadecimal, zero-padded to two characters, the
    sign of a negative number counting as one of them. *)
Definition format_02x (n : Z) : string :=
  if (n <? 0)%Z then String "-"%char (zfill 1 (hex (- n)))
  else zfill 2 (hex n).

(** The colour of a background edge in [create_route_map]:
    [f'#{int(255*(1-shade_score)):02x}{int(255*shade_score):02x}00']. *)
Definition edge_color (shade_score : Q) : string :=
  (String "#"%char
     (format_02x (int (255 * (1 - shade_score)))
      ++ format_02x (int (255 * shade_score)) ++ "00"))%string.


End AppViews.

(** ** Walks of a graph *)

Module Walks.

(** The graph stores a step from [u] to [v]. *)
Definition joined (G : Nx.graph) (u v : Z) : Prop :=
  exists (m : gmap Z (gmap Z (gmap string Q))) (d : gmap Z (gmap string Q)),
    Nx.adj G !! u = Some m /\ m !! v = Some d.

(** Every two neighbours of the list are related by [P]. *)
Fixpoint linked (P : Z -> Z -> Prop) (l : list Z) : Prop :=
  match l with
  | [] => True
  | a :: rest =>
      match rest with
      | [] => True
      | b :: _ => P a b /\ linked P rest
      end
  end.

(** A walk of the graph from [s] to [t]. *)
Definition walk (G : Nx.graph) (s t : Z) (p : list Z) : Prop :=
  head p = Some s /\ last p = Some t /\ linked (joined G) p.

(** The end points of every stored step are nodes of the graph. *)
Definition closed (G : Nx.graph) : Prop :=
  forall (u v : Z) (m : gmap Z (gmap Z (gmap string Q))) (d : gmap Z (gmap string Q)),
    Nx.adj G !! u = Some m -> m !! v = Some d ->
    u ∈ dom (Nx.node G) /\ v ∈ dom (Nx.node G).


(** From [v] the predecessor links lead to [source] in at most [n] steps. *)
Fixpoint reach (n : nat) (pred : gmap Z Z) (source v : Z) : Prop :=
  v = source \/
  match n with
  | O => False
  | S n' => exists u : Z, pred !! v = Some u /\ reach n' pred source u
  end.

(** What the search keeps true of its tentative distances, predecessor
    links and settled nodes. *)
Record invariant (G : Nx.graph) (source : Z)
    (dist : gmap Z Q) (pred : gmap Z Z) (seen : gset Z) : Prop := {
  inv_pred : forall v u : Z, pred !! v = Some u -> joined G u v /\ u ∈ seen;
  inv_dist : forall v : Z, v ∈ dom dist -> v = source \/ is_Some (pred !! v);
  inv_seen : forall v : Z, v ∈ seen -> reach (size seen) pred source v;
  inv_node : closed G ->
             (forall v : Z, v ∈ dom dist -> v ∈ dom (Nx.node G)) /\
             (forall v : Z, v ∈ seen -> v ∈ dom (Nx.node G))
}.

End Walks.

(** ** GENERATE_ALL_VISUALIZATIONS.py: the statistics and the classes *)

Module Visualizations.
Import Py.





(** The labels of the corridors map. *)
Inductive shade_class : Type := VeryLow | Low | Moderate | High | VeryHigh.

(** [pd.cut(x, bins, labels)]: the label of the first interval
    (bins[i], bins[i+1]] that holds [x], none when no interval does. *)
Fixpoint cut {L : Type} (bins : list Q) (labels : list L) (x : Q) : option L :=
  match bins with
  | [] => None
  | lo :: rest =>
      match rest, labels with
      | hi :: _, l :: ls =>
          if Qltb lo x && Qle_bool x hi then Some l else cut rest ls x
      | _, _ => None
      end
  end.

Definition classify (x : Q) : option shade_class :=
  cut [0; 0.2; 0.4; 0.6; 0.8; 1.0] [VeryLow; Low; Moderate; High; VeryHigh] x.

Definition class_rank (c : shade_class) : nat :=
  match c with
  | VeryLow => 0
  | Low => 1
  | Moderate => 2
  | High => 3
  | VeryHigh => 4
  end.

End Visualizations.

(** ** Sample networks *)

Module Examples.
Import Py.

(** A snapping function for the samples: the node at the least squared
    distance from the point. *)
Definition snap (G : Nx.graph) (X Y : Q) : Z :=
  let best :=
    foldr (fun nxy best =>
             let d := (fst (snd nxy) - X) * (fst (snd nxy) - X)
                      + (snd (snd nxy) - Y) * (snd (snd nxy) - Y) in
             match best with
             | None => Some (fst nxy, d)
             | Some b => if Qle_bool d (snd b) then Some (fst nxy, d) else best
             end)
          None (map_to_list (Nx.node G)) in
  from_option fst 0%Z best.

Definition attrs (length shade_score shade_weight : Q) : gmap string Q :=
  {[ "length"%string := length;
     "shade_score"%string := shade_score;
     "shade_weight"%string := shade_weight ]}.

(** Two nodes joined by two parallel segments: key 0 is the direct one
    (length 100, shade 0.0, cost 100), key 1 the shady one (length 120,
    shade 0.8, cost 120 × (1 − 0.3 × 0.8) = 91.2). *)
Definition parallel_edges : gmap Z (gmap string Q) :=
  {[ 0%Z := attrs 100 0.0 100; 1%Z := attrs 120 0.8 91.2 ]}.

Definition two_parallel : Nx.graph :=
  {| Nx.node := {[ 1%Z := (0, 0); 2%Z := (100, 0) ]};
     Nx.adj := {[ 1%Z := {[ 2%Z := parallel_edges ]};
                  2%Z := {[ 1%Z := parallel_edges ]} ]} |}.

(** One segment of length 100 and shade 1.0 between two nodes. *)
Definition single_edge : Nx.graph :=
  {| Nx.node := {[ 1%Z := (0, 0); 2%Z := (100, 0) ]};
     Nx.adj := {[ 1%Z := {[ 2%Z := {[ 0%Z := attrs 100 1.0 70 ]} ]};
                  2%Z := {[ 1%Z := {[ 0%Z := attrs 100 1.0 70 ]} ]} ]} |}.

(** Two components: 1 - 2 and 3 - 4. *)
Definition two_components : Nx.graph :=
  {| Nx.node := {[ 1%Z := (0, 0); 2%Z := (100, 0); 3%Z := (0, 500); 4%Z := (100, 500) ]};
     Nx.adj := {[ 1%Z := {[ 2%Z := {[ 0%Z := attrs 100 0.5 85 ]} ]};
                  2%Z := {[ 1%Z := {[ 0%Z := attrs 100 0.5 85 ]} ]};
                  3%Z := {[ 4%Z := {[ 0%Z := attrs 100 0.5 85 ]} ]};
                  4%Z := {[ 3%Z := {[ 0%Z := attrs 100 0.5 85 ]} ]} ]} |}.

(** The comparison of the two parallel segments taken one per route: the
    direct one (length 100, shade 0.0) as the shortest route and the shady
    one (length 120, shade 0.8) as the shadiest. *)
Definition end_to_end : Dashboard.route :=
  {| Dashboard.shortest_length := 100;
     Dashboard.shortest_shade := 0.0;
     Dashboard.shadiest_length := 120;
     Dashboard.shadiest_shade := 0.8;
     Dashboard.detour_pct := (120 - 100) / 100 * 100;
     Dashboard.shade_improvement := 0.8 - 0.0 |}.

Definition stops : list App.stop :=
  [ {| App.name := "East"; App.geometry_x := 100; App.geometry_y := 0 |};
    {| App.name := "North"; App.geometry_x := 100; App.geometry_y := 500 |};
    {| App.name := "West"; App.geometry_x := 0; App.geometry_y := 0 |} ].

(** One fully shaded edge of length 100 between two nodes. *)
Definition shaded_edge : Engine.edge :=
  {| Engine.from_node := 1; Engine.to_node := 2; Engine.length := 100;
     Engine.shade_scores := {[ "summer_midday"%string := 1.0 ]} |}.

End Examples.

(** * Properties *)

(** ** Numbers and the error monad *)

Section PyFacts.
Import Py.

Lemma Qltb_lt (x y : Q) : Qltb x y = true <-> x < y.
Proof. unfold Qltb, Qlt. apply Z.ltb_lt. Qed.

Lemma Qltb_ge (x y : Q) : Qltb x y = false <-> y <= x.
Proof. unfold Qltb, Qle. apply Z.ltb_ge. Qed.

Lemma Qle_bool_gt (x y : Q) : Qle_bool x y = false <-> y < x.
Proof.
  split; intros H.
  - apply Qnot_le_lt. intros Hle. apply Qle_bool_iff in Hle. congruence.
  - destruct (Qle_bool x y) eqn:E; [|reflexivity].
    apply Qle_bool_iff in E. exfalso. apply (Qlt_not_le _ _ H E).
Qed.

Lemma div_nonzero (x y : Q) : ~ y == 0 -> div x y = Ok (x / y).
Proof.
  intros H. unfold div. destruct (Qeq_bool y 0) eqn:E; [|reflexivity].
  apply Qeq_bool_iff in E. contradiction.
Qed.

Lemma div_zero (x y : Q) : y == 0 -> div x y = Raise ZeroDivisionError.
Proof.
  intros H. unfold div. apply Qeq_bool_iff in H. now rewrite H.
Qed.

Lemma div_inv (x y q : Q) : div x y = Ok q -> ~ y == 0 /\ q = x / y.
Proof.
  unfold div. destruct (Qeq_bool y 0) eqn:E; [discriminate|].
  intros [= <-]. split; [|reflexivity].
  intros H. apply Qeq_bool_iff in H. congruence.
Qed.

End PyFacts.

(** ** The dashboard's results *)

Section DashboardFacts.
Import Py Dashboard.

Lemma example_route_detour (k : key) (r : route) :
  EXAMPLE_ROUTES !! k = Some r ->
  detour_pct r = 11.7 \/ detour_pct r = 12.8 \/ detour_pct r = 14.9.
Proof.
  intros H. unfold EXAMPLE_ROUTES in H.
  apply elem_of_list_to_map_2 in H.
  repeat (apply elem_of_cons in H; destruct H as [H|H];
          [inversion H; subst; simpl; tauto|]).
  apply elem_of_nil in H. contradiction.
Qed.

Lemma unit_samples_tail (g : generator) (k : nat) :
  unit_samples g -> unit_samples (fun n => g (k + n)%nat).
Proof. intros H n. apply H. Qed.

(** The estimate reads the first four samples of the generator, the third
    of them for the detour. *)
Lemma estimate_eq (g : generator) :
  estimate g =
  (let sl := (300 + Qfloor (inject_Z (1200 - 300) * g 0%nat))%Z in
   let ss := 0.2 + (0.6 - 0.2) * g 1%nat in
   let dp := 8 + (15 - 8) * g 2%nat in
   let si := 0.15 + (0.40 - 0.15) * g 3%nat in
   {| shortest_length := inject_Z sl;
      shortest_shade := ss;
      shadiest_length := inject_Z (int (inject_Z sl * (1 + dp / 100)));
      shadiest_shade := ss + si;
      detour_pct := dp;
      shade_improvement := si |},
   fun n => g (4 + n)%nat).
Proof. reflexivity. Qed.

Lemma estimate_detour (g : generator) :
  unit_samples g ->
  8 <= detour_pct (fst (estimate g)) /\ detour_pct (fst (estimate g)) < 15.
Proof.
  intros H. rewrite estimate_eq. cbn [fst detour_pct].
  destruct (H 2%nat) as [H0 H1]. split; lra.
Qed.

Lemma detour_stored_pos (r : route) : detour_stored r -> 0 < detour_pct r.
Proof.
  intros [H|[H|[H|[H _]]]]; try (rewrite H; reflexivity).
  eapply Qlt_le_trans; [|exact H]. reflexivity.
Qed.

Lemma calculate_hit (origin destination scenario : string) (s : state) (r : route) :
  EXAMPLE_ROUTES !! ((origin, destination, scenario) : key) = Some r ->
  calculate origin destination scenario s
  = {| result := Some r; rng := rng s; shown := RouteCalculated :: shown s |}.
Proof. intros H. unfold calculate. cbv zeta. now rewrite H. Qed.

Lemma calculate_miss (origin destination scenario : string) (s : state) :
  EXAMPLE_ROUTES !! ((origin, destination, scenario) : key) = None ->
  calculate origin destination scenario s
  = {| result := Some (fst (estimate (rng s)));
       rng := snd (estimate (rng s));
       shown := EstimatedResult :: shown s |}.
Proof.
  intros H. unfold calculate. cbv zeta. rewrite H.
  now destruct (estimate (rng s)).
Qed.

Lemma reachable_invariant (g : generator) (s : state) :
  unit_samples g -> reachable g s ->
  unit_samples (rng s) /\ (forall r, result s = Some r -> detour_stored r).
Proof.
  intros Hg Hr. induction Hr as [|s origin destination scenario Hr [IHg IHr]].
  - split; [exact Hg|]. intros r [=].
  - destruct (EXAMPLE_ROUTES !! ((origin, destination, scenario) : key)) as [r0|] eqn:E.
    + rewrite (calculate_hit _ _ _ _ _ E). split; [exact IHg|].
      cbn. intros r [= <-].
      destruct (example_route_detour _ _ E) as [H|[H|H]]; unfold detour_stored; tauto.
    + rewrite (calculate_miss _ _ _ _ E).
      pose proof (estimate_detour (rng s) IHg) as Hd. split.
      * rewrite estimate_eq. apply (unit_samples_tail (rng s) 4 IHg).
      * cbn [result]. intros r [= <-]. unfold detour_stored. tauto.
Qed.

Lemma unguarded_efficiency_ok (r : route) :
  0 < detour_pct r ->
  (d ← div (detour_pct r) 100; e ← div (shade_improvement r) d; Ok (Some e))
  = Ok (Some (shade_improvement r / (detour_pct r / 100))).
Proof.
  intros H. rewrite div_nonzero by (intros E; discriminate E).
  cbn. rewrite div_nonzero; [reflexivity|].
  intros E.
  assert (Hd : detour_pct r == detour_pct r / 100 * 100) by field.
  rewrite E in Hd. lra.
Qed.

End DashboardFacts.

Section DashboardClaims.
Import Py Dashboard.

Lemma rating_agree (e : Q) : analysis_text_rating e = fst (results_message_rating e).
Proof.
  unfold analysis_text_rating, results_message_rating.
  destruct (Qle_bool 3.0 e), (Qle_bool 2.0 e), (Qle_bool 1.0 e); reflexivity.
Qed.

Lemma rating_cases (e : Q) :
  (3 <= e /\ analysis_text_rating e = EXCELLENT)
  \/ (2 <= e /\ e < 3 /\ analysis_text_rating e = GOOD)
  \/ (1 <= e /\ e < 2 /\ analysis_text_rating e = MODERATE)
  \/ (e < 1 /\ analysis_text_rating e = LOW).
Proof.
  unfold analysis_text_rating.
  destruct (Qle_bool 3.0 e) eqn:E3.
  { apply Qle_bool_iff in E3. left. split; [lra|reflexivity]. }
  apply Qle_bool_gt in E3.
  destruct (Qle_bool 2.0 e) eqn:E2.
  { apply Qle_bool_iff in E2. right; left. split; [lra|split; [lra|reflexivity]]. }
  apply Qle_bool_gt in E2.
  destruct (Qle_bool 1.0 e) eqn:E1.
  { apply Qle_bool_iff in E1. right; right; left. split; [lra|split; [lra|reflexivity]]. }
  apply Qle_bool_gt in E1.
  right; right; right. split; [lra|reflexivity].
Qed.

Lemma efficiency_pos (r : route) :
  0 < detour_pct r ->
  efficiency r = Ok (shade_improvement r / (detour_pct r / 100)).
Proof.
  intros H. unfold efficiency.
  apply Qltb_lt in H as Hb. rewrite Hb.
  pose proof (unguarded_efficiency_ok r H) as U.
  destruct (div (detour_pct r) 100) as [d|]; [|discriminate U]. cbn in *.
  destruct (div (shade_improvement r) d) as [e|]; [|discriminate U]. cbn in U.
  now injection U as ->.
Qed.

Lemma efficiency_nonpos (r : route) :
  detour_pct r <= 0 -> efficiency r = Ok 0.
Proof.
  intros H. unfold efficiency. apply Qltb_ge in H. now rewrite H.
Qed.



End DashboardClaims.

Section ServerClaims.
Import Py Dashboard.

(** C10: in every state the session reaches, a stored result has a detour of
    11.7, 12.8 or 14.9 (an example route) or one drawn from uniform(8, 15)
    (an estimate), hence positive, and the unguarded divisions of the
    metrics table and of the trade-off plot return. *)
Theorem renderers_never_divide_by_zero (g : generator) (s : state) :
  unit_samples g -> reachable g s ->
  (forall r : route, result s = Some r ->
     (detour_pct r = 11.7 \/ detour_pct r = 12.8 \/ detour_pct r = 14.9
      \/ (8 <= detour_pct r /\ detour_pct r < 15))
     /\ 0 < detour_pct r)
  /\ (exists v, metrics_table s = Ok v)
  /\ (exists v, tradeoff_plot s = Ok v).
Proof.
  intros Hg Hr. destruct (reachable_invariant g s Hg Hr) as [_ Hinv].
  split; [|split].
  - intros r E. split; [apply (Hinv r E)|apply detour_stored_pos, (Hinv r E)].
  - unfold metrics_table. destruct (result s) as [r|] eqn:E; [|eauto].
    rewrite unguarded_efficiency_ok by (apply detour_stored_pos, Hinv; reflexivity).
    eauto.
  - unfold tradeoff_plot. destruct (result s) as [r|] eqn:E; [|eauto].
    rewrite unguarded_efficiency_ok by (apply detour_stored_pos, Hinv; reflexivity).
    eauto.
Qed.

Lemma renderers_never_divide_by_zero_witness :
  let g : generator := fun n => 1 # Pos.of_succ_nat (S n) in
  let s := calculate "Penn Campus" "34th St" "summer_midday"
             (calculate "Penn Campus" "40th St" "summer_midday" (init g)) in
  (exists v, metrics_table s = Ok v) /\ (exists v, tradeoff_plot s = Ok v).
Proof.
  intros g s.
  assert (Hg : unit_samples g).
  { intros n. unfold g, Qle, Qlt. cbn. lia. }
  assert (Hr : reachable g s) by (unfold s; repeat constructor).
  exact (proj2 (renderers_never_divide_by_zero g s Hg Hr)).
Defined.





End ServerClaims.

(** ** The route calculator *)

Section AppFacts.
Import Py App.

Ltac run_bind := cbn [mbind res_bind Py.bind].

Lemma bind_Ok {A B : Type} (m : res A) (k : A -> res B) (b : B) :
  (m ≫= k) = Ok b -> exists a : A, m = Ok a /\ k a = Ok b.
Proof.
  destruct m as [a|e]; cbn; [eauto|discriminate].
Qed.

Lemma bind_Raise {A B : Type} (m : res A) (k : A -> res B) (e : exn) :
  m = Raise e -> (m ≫= k) = Raise e.
Proof. now intros ->. Qed.

Lemma route_totals_step (graph : Nx.graph) (u v : Z) (rest : list Z) (acc : Q * Q) :
  route_totals graph (u :: v :: rest) acc =
  (edge_data ← edge0 graph u v;
   edge_length ← getitem (edge_data !! "length"%string);
   route_totals graph (v :: rest)
     (fst acc + edge_length,
      snd acc + default 0 (edge_data !! "shade_score"%string) * edge_length)).
Proof. reflexivity. Qed.

Lemma segments_step (graph : Nx.graph) (u v : Z) (rest : list Z) :
  segments graph (u :: v :: rest) =
  (edge_data ← edge0 graph u v;
   edge_length ← getitem (edge_data !! "length"%string);
   segs ← segments graph (v :: rest);
   Ok ((edge_length, edge_data !! "shade_score"%string) :: segs)).
Proof. reflexivity. Qed.

(** The loop adds, to what it starts from, the length and the weighted
    shade of the segments of the path. *)
Lemma route_totals_segments (graph : Nx.graph) (path : list Z) :
  forall (acc : Q * Q) (t w : Q),
    route_totals graph path acc = Ok (t, w) ->
    exists segs : list (Q * option Q),
      segments graph path = Ok segs /\
      t == fst acc + total_length segs /\
      w == snd acc + weighted_shade segs.
Proof.
  induction path as [|u rest IH]; intros acc t w H.
  - injection H as ->. exists []. cbn. split; [reflexivity|]. split; ring.
  - destruct rest as [|v rest'].
    + injection H as ->. exists []. cbn. split; [reflexivity|]. split; ring.
    + rewrite route_totals_step in H.
      apply bind_Ok in H as [edge_data [E0 H]].
      apply bind_Ok in H as [edge_length [El H]].
      apply IH in H as [segs [Hs [Ht Hw]]].
      exists ((edge_length, edge_data !! "shade_score"%string) :: segs).
      rewrite segments_step, E0. run_bind. rewrite El. run_bind.
      rewrite Hs. run_bind. split; [reflexivity|].
      cbn [total_length weighted_shade foldr fst snd].
      fold (total_length segs). fold (weighted_shade segs).
      cbn [fst snd] in Ht, Hw. unfold default in Hw.
      destruct (edge_data !! "shade_score"%string); cbn [from_option id] in Hw;
        (split; [rewrite Ht|rewrite Hw]; ring).
Qed.


Lemma avg_shade_mean (w t a : Q) :
  avg_shade w t = Ok a ->
  (0 < t -> a == w / t) /\ (t <= 0 -> a = 0).
Proof.
  unfold avg_shade. intros H. destruct (Qltb 0 t) eqn:E.
  - apply Qltb_lt in E. apply div_inv in H as [_ ->].
    split; [reflexivity|]. intros. exfalso. lra.
  - apply Qltb_ge in E. injection H as <-. split; [|reflexivity].
    intros. exfalso. lra.
Qed.


End AppFacts.

Section SearchFacts.
Import Py.

Lemma shortest_path_same (G : Nx.graph) (s : Z) (weight : string) :
  s ∈ dom (Nx.node G) -> Nx.shortest_path G s s weight = Ok [s].
Proof.
  intros H. unfold Nx.shortest_path.
  rewrite !(bool_decide_eq_true_2 _ H). cbn [negb].
  now rewrite bool_decide_eq_true_2.
Qed.

Lemma shortest_path_not_found (G : Nx.graph) (s t : Z) (weight : string) :
  s ∉ dom (Nx.node G) \/ t ∉ dom (Nx.node G) ->
  Nx.shortest_path G s t weight = Raise NodeNotFound.
Proof.
  intros H. unfold Nx.shortest_path.
  destruct (bool_decide (s ∈ dom (Nx.node G))) eqn:Es; [|reflexivity].
  destruct (bool_decide (t ∈ dom (Nx.node G))) eqn:Et; [|reflexivity].
  apply bool_decide_eq_true_1 in Es, Et. tauto.
Qed.

Lemma walk_back_nonempty (fuel : nat) (pred : gmap Z Z) (source : Z) :
  forall (v : Z) (acc : list Z), Nx.walk_back fuel pred source v acc <> [].
Proof.
  induction fuel as [|fuel IH]; intros v acc; cbn [Nx.walk_back].
  - destruct (bool_decide (v = source)); discriminate.
  - destruct (bool_decide (v = source)); [discriminate|].
    destruct (pred !! v); [apply IH|discriminate].
Qed.

(** A search that returns, returns at least one node. *)
Lemma shortest_path_nonempty (G : Nx.graph) (s t : Z) (weight : string) (p : list Z) :
  Nx.shortest_path G s t weight = Ok p -> p <> [].
Proof.
  unfold Nx.shortest_path.
  destruct (negb (bool_decide (s ∈ dom (Nx.node G)))); [discriminate|].
  destruct (negb (bool_decide (t ∈ dom (Nx.node G)))); [discriminate|].
  destruct (bool_decide (s = t)).
  - intros [= <-]. discriminate.
  - destruct (Nx.search _ _ _ _ _ _ _); [|discriminate].
    intros [= <-]. apply (walk_back_nonempty (S (size (Nx.node G)))).
Qed.

End SearchFacts.

Section CalculateFacts.
Import Py App.

Variable nearest_nodes : Nx.graph -> Q -> Q -> Z.

(** What a run of the [try] block that builds [results] went through. *)
Lemma calculate_body_inv (lat lon : Q) (n : string) (graph : Nx.graph)
    (septa_df : list stop) (r : results) :
  calculate_body nearest_nodes lat lon n graph septa_df = Ok (Some r) ->
  exists (dest_stop : stop) (others : list stop) (ws wd : Q),
    dest_stops septa_df n = dest_stop :: others /\
    Nx.shortest_path graph (nearest_nodes graph lon lat)
      (nearest_nodes graph (geometry_x dest_stop) (geometry_y dest_stop)) "length"
    = Ok (shortest_path r) /\
    route_totals graph (shortest_path r) (0, 0) = Ok (shortest_length_ft r, ws) /\
    avg_shade ws (shortest_length_ft r) = Ok (shortest_shade_score r) /\
    Nx.shortest_path graph (nearest_nodes graph lon lat)
      (nearest_nodes graph (geometry_x dest_stop) (geometry_y dest_stop)) "shade_weight"
    = Ok (shadiest_path r) /\
    route_totals graph (shadiest_path r) (0, 0) = Ok (shadiest_length_ft r, wd) /\
    avg_shade wd (shadiest_length_ft r) = Ok (shadiest_shade_score r) /\
    shortest_length_m r = shortest_length_ft r * 0.3048 /\
    shadiest_length_m r = shadiest_length_ft r * 0.3048 /\
    length_increase_ft r = shadiest_length_ft r - shortest_length_ft r /\
    length_increase_m r = length_increase_ft r * 0.3048 /\
    shade_improvement r = shadiest_shade_score r - shortest_shade_score r /\
    (if Qltb 0 (shortest_length_ft r)
     then (q ← div (length_increase_ft r) (shortest_length_ft r); Ok (q * 100))
     else Ok 0) = Ok (length_increase_pct r) /\
    (if Qltb 0 (length_increase_m r)
     then (q ← div (shade_improvement r) (length_increase_m r); Ok (Fin q))
     else Ok Inf) = Ok (shade_per_meter_detour r).
Proof.
  unfold calculate_body. intros H.
  destruct (dest_stops septa_df n) as [|dest_stop others]; [discriminate|].
  apply bind_Ok in H as [sp [Hsp H]].
  apply bind_Ok in H as [[ts ws] [Hts H]].
  apply bind_Ok in H as [sa [Hsa H]].
  apply bind_Ok in H as [dp [Hdp H]].
  apply bind_Ok in H as [[td wd] [Htd H]].
  apply bind_Ok in H as [da [Hda H]].
  cbv zeta in H.
  apply bind_Ok in H as [pct [Hpct H]].
  apply bind_Ok in H as [sip [Hsip H]].
  apply bind_Ok in H as [spm [Hspm H]].
  injection H as <-. cbn [fst snd] in *.
  exists dest_stop, others, ws, wd. cbn.
  repeat (split; [first [assumption|reflexivity]|]). assumption.
Qed.

Lemma calculate_returned (lat lon : Q) (n : string) (graph : Nx.graph)
    (septa_df : list stop) (r : results) :
  returned (calculate_route_from_coords nearest_nodes lat lon n graph septa_df) = Some r ->
  calculate_body nearest_nodes lat lon n graph septa_df = Ok (Some r).
Proof.
  unfold calculate_route_from_coords.
  destruct (calculate_body nearest_nodes lat lon n graph septa_df) as [o|e].
  - cbn. now intros ->.
  - destruct e; discriminate.
Qed.

End CalculateFacts.

Section RouteClaims.
Import Py App.

Variable nearest_nodes : Nx.graph -> Q -> Q -> Z.

Lemma route_mean (graph : Nx.graph) (path : list Z) (t w a : Q) :
  route_totals graph path (0, 0) = Ok (t, w) ->
  avg_shade w t = Ok a ->
  exists segs : list (Q * option Q),
    segments graph path = Ok segs /\
    t == total_length segs /\
    (0 < total_length segs -> a == weighted_shade segs / total_length segs) /\
    (total_length segs == 0 -> a = 0).
Proof.
  intros Ht Ha.
  apply route_totals_segments in Ht as [segs [Hs [Ht Hw]]].
  cbn [fst snd] in Ht, Hw. rewrite Qplus_0_l in Ht, Hw.
  apply avg_shade_mean in Ha as [Hpos Hzero].
  exists segs. split; [exact Hs|]. split; [exact Ht|]. split.
  - intros H. rewrite <- Ht in H. rewrite (Hpos H), Hw, Ht. reflexivity.
  - intros H. apply Hzero. rewrite Ht, H. discriminate.
Qed.

(** C4: the shade score reported for a route is the length-weighted mean
    Σ(length_i × shade_i) / Σ(length_i) over the segments of its path, 0
    when the total length is 0, and a segment without a shade score counts
    for shade 0 (its length still counts). *)
Theorem avg_shade_is_length_weighted_mean (lat lon : Q) (n : string)
    (graph : Nx.graph) (septa_df : list stop) (r : results) :
  returned (calculate_route_from_coords nearest_nodes lat lon n graph septa_df) = Some r ->
  (exists segs : list (Q * option Q),
     segments graph (shortest_path r) = Ok segs /\
     shortest_length_ft r == total_length segs /\
     (0 < total_length segs ->
      shortest_shade_score r == weighted_shade segs / total_length segs) /\
     (total_length segs == 0 -> shortest_shade_score r = 0))
  /\
  (exists segs : list (Q * option Q),
     segments graph (shadiest_path r) = Ok segs /\
     shadiest_length_ft r == total_length segs /\
     (0 < total_length segs ->
      shadiest_shade_score r == weighted_shade segs / total_length segs) /\
     (total_length segs == 0 -> shadiest_shade_score r = 0))
  /\
  (forall (l s : Q) (segs : list (Q * option Q)),
     weighted_shade ((l, Some s) :: segs) == l * s + weighted_shade segs /\
     weighted_shade ((l, None) :: segs) == weighted_shade segs /\
     total_length ((l, None) :: segs) == l + total_length segs).
Proof.
  intros H. apply calculate_returned, calculate_body_inv in H.
  destruct H as (dest_stop & others & ws & wd & _ & _ & Hts & Has & _ & Htd & Had & _).
  split; [exact (route_mean _ _ _ _ _ Hts Has)|].
  split; [exact (route_mean _ _ _ _ _ Htd Had)|].
  intros l s segs. unfold weighted_shade, total_length. cbn [foldr fst snd].
  split; [ring|]. split; ring.
Qed.

(** C9, as the calculator has it: the [_ft] lengths are the raw sums of the
    segment lengths of each path; the [_m] lengths it reports next to them
    are those sums times 0.3048. *)
Theorem lengths_raw_and_converted (lat lon : Q) (n : string)
    (graph : Nx.graph) (septa_df : list stop) (r : results) :
  returned (calculate_route_from_coords nearest_nodes lat lon n graph septa_df) = Some r ->
  exists segs_short segs_shady : list (Q * option Q),
    segments graph (shortest_path r) = Ok segs_short /\
    segments graph (shadiest_path r) = Ok segs_shady /\
    shortest_length_ft r == total_length segs_short /\
    shadiest_length_ft r == total_length segs_shady /\
    length_increase_ft r == total_length segs_shady - total_length segs_short /\
    shortest_length_m r == total_length segs_short * 0.3048 /\
    shadiest_length_m r == total_length segs_shady * 0.3048 /\
    length_increase_m r == (total_length segs_shady - total_length segs_short) * 0.3048.
Proof.
  intros H. apply calculate_returned, calculate_body_inv in H.
  destruct H as (dest_stop & others & ws & wd & _ & _ & Hts & _ & _ & Htd & _
                 & Hsm & Hdm & Hft & Hm & _).
  apply route_totals_segments in Hts as [ss [Hss [Hs _]]].
  apply route_totals_segments in Htd as [sd [Hsd [Hd _]]].
  cbn [fst] in Hs, Hd. rewrite Qplus_0_l in Hs, Hd.
  exists ss, sd. rewrite Hm, Hsm, Hdm, Hft, Hs, Hd.
  repeat split; first [assumption|reflexivity].
Qed.

End RouteClaims.

Section OutcomeClaims.
Import Py App.

Variable nearest_nodes : Nx.graph -> Q -> Q -> Z.

(** C5: when the origin and the destination snap to one node of the graph,
    both searches return the zero-edge path at that node, a result is
    returned (not [None]), both lengths, both shade scores and the detour
    percentage are 0, and the page shows the efficiency as Perfect. *)
Theorem same_origin_and_destination (lat lon : Q) (n : string)
    (graph : Nx.graph) (septa_df : list stop) (dest_stop : stop) (others : list stop) :
  dest_stops septa_df n = dest_stop :: others ->
  nearest_nodes graph (geometry_x dest_stop) (geometry_y dest_stop)
  = nearest_nodes graph lon lat ->
  nearest_nodes graph lon lat ∈ dom (Nx.node graph) ->
  exists r : results,
    calculate_route_from_coords nearest_nodes lat lon n graph septa_df
    = {| returned := Some r; st_error := None |} /\
    shortest_path r = [nearest_nodes graph lon lat] /\
    shadiest_path r = [nearest_nodes graph lon lat] /\
    shortest_length_ft r = 0 /\
    shadiest_length_ft r = 0 /\
    shortest_shade_score r = 0 /\
    shadiest_shade_score r = 0 /\
    length_increase_pct r = 0 /\
    shade_per_meter_detour r = Inf /\
    show (calculate_route_from_coords nearest_nodes lat lon n graph septa_df)
    = RoutesCalculated r Perfect.
Proof.
  intros Hstop Hsame Hin.
  unfold show, calculate_route_from_coords, calculate_body.
  rewrite Hstop, Hsame, !(shortest_path_same _ _ _ Hin).
  eexists. cbn. repeat split; reflexivity.
Qed.

(** C7, as the calculator has it: a destination name that matches no stop
    and a search that raises NetworkXNoPath both end in the same outcome,
    [None] with nothing shown; a node that is not in the graph ends in
    [None] with the error shown; no exception leaves the function, and a
    result that is returned never holds an empty path. *)
Theorem failures_return_None (lat lon : Q) (n : string)
    (graph : Nx.graph) (septa_df : list stop) :
  let o := calculate_route_from_coords nearest_nodes lat lon n graph septa_df in
  let origin_node := nearest_nodes graph lon lat in
  let dest_node (s : stop) := nearest_nodes graph (geometry_x s) (geometry_y s) in
  (dest_stops septa_df n = [] -> o = {| returned := None; st_error := None |})
  /\
  (forall (dest_stop : stop) (others : list stop),
     dest_stops septa_df n = dest_stop :: others ->
     Nx.shortest_path graph origin_node (dest_node dest_stop) "length"
     = Raise NetworkXNoPath ->
     o = {| returned := None; st_error := None |})
  /\
  (forall (dest_stop : stop) (others : list stop),
     dest_stops septa_df n = dest_stop :: others ->
     origin_node ∉ dom (Nx.node graph) \/ dest_node dest_stop ∉ dom (Nx.node graph) ->
     o = {| returned := None; st_error := Some NodeNotFound |})
  /\
  (forall r : results,
     returned o = Some r ->
     st_error o = None /\ shortest_path r <> [] /\ shadiest_path r <> []).
Proof.
  cbv zeta. repeat split.
  - intros H. unfold calculate_route_from_coords, calculate_body. now rewrite H.
  - intros dest_stop others Hs Hp.
    unfold calculate_route_from_coords, calculate_body.
    rewrite Hs, Hp. reflexivity.
  - intros dest_stop others Hs Hn.
    unfold calculate_route_from_coords, calculate_body.
    rewrite Hs, (shortest_path_not_found graph _ _ "length" Hn). reflexivity.
  - apply calculate_returned in H.
    unfold calculate_route_from_coords. now rewrite H.
  - apply calculate_returned, calculate_body_inv in H.
    destruct H as (dest_stop & others & ws & wd & _ & Hp & _).
    apply (shortest_path_nonempty _ _ _ _ _ Hp).
  - apply calculate_returned, calculate_body_inv in H.
    destruct H as (dest_stop & others & ws & wd & _ & _ & _ & _ & Hp & _).
    apply (shortest_path_nonempty _ _ _ _ _ Hp).
Qed.


End OutcomeClaims.

(** ** The calculator and the dashboard on the sample networks *)

Section Samples.
Import Py App Examples.

Lemma avg_shade_is_length_weighted_mean_witness :
  exists r : results,
    returned (calculate_route_from_coords snap 0 0 "East" single_edge stops) = Some r /\
    exists segs : list (Q * option Q),
      segments single_edge (shortest_path r) = Ok segs /\
      (0 < total_length segs ->
       shortest_shade_score r == weighted_shade segs / total_length segs).
Proof.
  eexists. split; [vm_compute; reflexivity|].
  destruct (avg_shade_is_length_weighted_mean snap 0 0 "East" single_edge stops _
              ltac:(vm_compute; reflexivity)) as [[segs [Hs [_ [Hm _]]]] _].
  exists segs. split; [exact Hs|exact Hm].
Defined.

Lemma lengths_raw_and_converted_witness :
  exists (r : results) (segs : list (Q * option Q)),
    returned (calculate_route_from_coords snap 0 0 "East" single_edge stops) = Some r /\
    segments single_edge (shortest_path r) = Ok segs /\
    shortest_length_ft r == total_length segs /\
    shortest_length_m r == total_length segs * 0.3048.
Proof.
  eexists.
  destruct (lengths_raw_and_converted snap 0 0 "East" single_edge stops _
              ltac:(vm_compute; reflexivity))
    as (ss & sd & Hs & _ & Hft & _ & _ & Hm & _).
  exists ss. split; [vm_compute; reflexivity|]. split; [exact Hs|].
  split; [exact Hft|exact Hm].
Defined.

(** C9 as stated fails: for one segment of length 100 the calculator also
    reports 30.48, the length converted from feet to metres. *)
Lemma length_reported_in_metres :
  exists r : results,
    returned (calculate_route_from_coords snap 0 0 "East" single_edge stops) = Some r /\
    segments single_edge (shortest_path r) = Ok [(100, Some 1.0)] /\
    shortest_length_ft r == 100 /\
    shortest_length_m r == 30.48 /\
    ~ shortest_length_m r == 100.
Proof.
  eexists. split; [vm_compute; reflexivity|].
  split; [vm_compute; reflexivity|].
  split; [reflexivity|]. split; [reflexivity|]. discriminate.
Qed.

Lemma same_origin_and_destination_witness :
  exists r : results,
    calculate_route_from_coords snap 0 0 "West" two_components stops
    = {| returned := Some r; st_error := None |} /\
    shortest_path r = [1%Z] /\
    shortest_length_ft r = 0 /\
    length_increase_pct r = 0 /\
    show (calculate_route_from_coords snap 0 0 "West" two_components stops)
    = RoutesCalculated r Perfect.
Proof.
  destruct (same_origin_and_destination snap 0 0 "West" two_components stops
              {| name := "West"; geometry_x := 0; geometry_y := 0 |} []
              ltac:(vm_compute; reflexivity)
              ltac:(vm_compute; reflexivity)
              ltac:(apply elem_of_dom; eexists; vm_compute; reflexivity))
    as (r & Hr & Hp & _ & Hl & _ & _ & _ & Hpct & _ & Hshow).
  exists r. split; [exact Hr|]. split; [exact Hp|]. split; [exact Hl|].
  split; [exact Hpct|exact Hshow].
Defined.

(** C7 as stated fails: a destination in another component (the search
    raises NetworkXNoPath) and a destination name that matches no stop leave
    the same outcome, [None]. *)
Lemma failures_share_one_value :
  Nx.shortest_path two_components (snap two_components 0 0)
    (snap two_components 100 500) "length" = Raise NetworkXNoPath /\
  dest_stops stops "South" = [] /\
  calculate_route_from_coords snap 0 0 "North" two_components stops
  = {| returned := None; st_error := None |} /\
  calculate_route_from_coords snap 0 0 "North" two_components stops
  = calculate_route_from_coords snap 0 0 "South" two_components stops.
Proof.
  repeat split; vm_compute; reflexivity.
Qed.

Lemma failures_return_None_witness :
  calculate_route_from_coords snap 0 0 "North" two_components stops
  = {| returned := None; st_error := None |} /\
  calculate_route_from_coords snap 0 0 "South" two_components stops
  = {| returned := None; st_error := None |}.
Proof.
  destruct (failures_return_None snap 0 0 "North" two_components stops)
    as (_ & Hno_path & _).
  destruct (failures_return_None snap 0 0 "South" two_components stops)
    as (Hno_stop & _).
  split.
  - apply (Hno_path {| name := "North"; geometry_x := 100; geometry_y := 500 |} []);
      vm_compute; reflexivity.
  - apply Hno_stop. vm_compute; reflexivity.
Defined.



(** C8 fails on the code: on the two parallel segments the shade-weighted
    search steps over the pair at weight 91.2, the cost of the shady segment
    (key 1, length 120, shade 0.8), but the totals are read from the segment
    at key 0: the shadiest route is reported with length 100 and shade 0,
    the detour is 0 and the page shows Perfect. *)
Theorem parallel_edge_totals_from_key_0 :
  exists (r : results) (w : Q),
    calculate_route_from_coords snap 0 0 "East" two_parallel stops
    = {| returned := Some r; st_error := None |} /\
    shadiest_path r = [1%Z; 2%Z] /\
    Nx.weight_function "shade_weight" parallel_edges = Some w /\
    w == 91.2 /\
    parallel_edges !! 1%Z = Some (attrs 120 0.8 91.2) /\
    segments two_parallel (shadiest_path r) = Ok [(100, Some 0.0)] /\
    shadiest_length_ft r == 100 /\
    shadiest_shade_score r == 0 /\
    length_increase_pct r == 0 /\
    shade_improvement r == 0 /\
    routing_efficiency r = Perfect.
Proof.
  do 2 eexists. split; [vm_compute; reflexivity|].
  split; [reflexivity|]. split; [vm_compute; reflexivity|].
  split; [reflexivity|]. split; [vm_compute; reflexivity|].
  split; [vm_compute; reflexivity|].
  repeat split; reflexivity.
Qed.

End Samples.

(** ** The edge cost *)

Section CostClaims.
Import Py Engine.

Lemma cost_valid (e : edge) (scenario : string) (alpha : Q) :
  0 <= alpha -> alpha <= 1 -> 0 <= length e ->
  cost e scenario alpha = Ok (length e * (1 - alpha * shade e scenario)).
Proof.
  intros H0 H1 Hl. unfold cost.
  apply Qltb_ge in H0, H1, Hl. now rewrite H0, H1, Hl.
Qed.

(** C2: for a coefficient α in [0, 1] the routing cost of an edge is
    length × (1 − α × shade); with shade score 1.0 and the default α = 0.3
    it is length × 0.7. *)
Theorem cost_is_discounted_length (e : edge) (scenario : string) (alpha : Q) :
  0 <= alpha -> alpha <= 1 -> 0 <= length e ->
  cost e scenario alpha = Ok (length e * (1 - alpha * shade e scenario))
  /\
  (shade e scenario == 1 ->
   exists c : Q, cost e scenario default_alpha = Ok c /\ c == length e * 0.7).
Proof.
  intros H0 H1 Hl. split; [apply (cost_valid e scenario alpha H0 H1 Hl)|].
  intros Hs. eexists. split.
  - apply cost_valid; [discriminate|discriminate|exact Hl].
  - rewrite Hs. unfold default_alpha. ring.
Qed.

Lemma cost_is_discounted_length_witness :
  exists c : Q,
    cost Examples.shaded_edge "summer_midday" default_alpha = Ok c /\ c == 70.
Proof.
  destruct (cost_is_discounted_length Examples.shaded_edge "summer_midday" default_alpha
              ltac:(discriminate) ltac:(discriminate) ltac:(discriminate))
    as [_ H].
  destruct (H ltac:(vm_compute; reflexivity)) as [c [Hc Hv]].
  exists c. split; [exact Hc|]. rewrite Hv. reflexivity.
Defined.

End CostClaims.

(** * Further properties of the dashboard *)

Section EstimateFacts.
Import Py Dashboard DashboardViews.

Lemma int_floor (x : Q) : 0 <= x -> int x = Qfloor x.
Proof.
  intros H. unfold int. destruct x as [n d]. cbn.
  apply Z.quot_div_nonneg; [|lia].
  unfold Qle in H. cbn in H. lia.
Qed.

Lemma Qfloor_range (x : Q) (lo hi : Z) :
  inject_Z lo <= x -> x < inject_Z hi -> (lo <= Qfloor x < hi)%Z.
Proof.
  intros Hlo Hhi. split.
  - rewrite <- (Qfloor_Z lo). now apply Qfloor_resp_le.
  - rewrite Zlt_Qlt. eapply Qle_lt_trans; [apply Qfloor_le|exact Hhi].
Qed.

Lemma estimate_ranges (g : generator) :
  unit_samples g ->
  let r := fst (estimate g) in
  (exists z : Z, shortest_length r = inject_Z z /\ (300 <= z < 1200)%Z) /\
  (0.2 <= shortest_shade r /\ shortest_shade r < 0.6) /\
  (8 <= detour_pct r /\ detour_pct r < 15) /\
  (0.15 <= shade_improvement r /\ shade_improvement r < 0.40) /\
  shadiest_shade r = shortest_shade r + shade_improvement r /\
  (shortest_length r <= shadiest_length r /\
   shadiest_length r <= shortest_length r * (1 + detour_pct r / 100) /\
   shortest_length r * (1 + detour_pct r / 100) < shadiest_length r + 1).
Proof.
  intros H. rewrite estimate_eq. cbn [fst].
  destruct (H 0%nat) as [H0 H0'], (H 1%nat) as [H1 H1'],
           (H 2%nat) as [H2 H2'], (H 3%nat) as [H3 H3'].
  cbv zeta.
  cbn [shortest_length shortest_shade detour_pct shade_improvement
       shadiest_shade shadiest_length].
  assert (Hf : (0 <= Qfloor (inject_Z (1200 - 300) * g 0%nat) < 900)%Z).
  { apply Qfloor_range.
    - change (inject_Z 0) with 0. change (inject_Z (1200 - 300)) with 900. nra.
    - change (inject_Z 900) with 900. change (inject_Z (1200 - 300)) with 900. nra. }
  set (sl := (300 + Qfloor (inject_Z (1200 - 300) * g 0%nat))%Z) in *.
  assert (Hsl : (300 <= sl < 1200)%Z) by (unfold sl; lia).
  assert (Hq : 300 <= inject_Z sl).
  { change 300 with (inject_Z 300). rewrite <- Zle_Qle. lia. }
  split; [exists sl; split; [reflexivity|exact Hsl]|].
  split; [split; lra|]. split; [split; lra|]. split; [split; lra|].
  split; [reflexivity|].
  set (dp := 8 + (15 - 8) * g 2%nat) in *.
  assert (Hdp : 8 <= dp /\ dp < 15) by (unfold dp; split; lra).
  set (x := inject_Z sl * (1 + dp / 100)).
  assert (Hx : inject_Z sl <= x).
  { unfold x, Qdiv. change (/ 100) with (1 # 100). nra. }
  rewrite int_floor by lra.
  split; [|split].
  - rewrite <- Zle_Qle. rewrite <- (Qfloor_Z sl). now apply Qfloor_resp_le.
  - apply Qfloor_le.
  - pose proof (Qlt_floor x) as Hlt. rewrite inject_Z_plus in Hlt. exact Hlt.
Qed.

End EstimateFacts.

Section DashboardExtras.
Import Py Dashboard DashboardViews.

Ltac closed_order := vm_compute; first [reflexivity | discriminate].

Lemma example_route_consistent (k : key) (r : route) :
  EXAMPLE_ROUTES !! k = Some r -> consistent r.
Proof.
  intros H. unfold EXAMPLE_ROUTES in H.
  apply elem_of_list_to_map_2 in H.
  repeat (apply elem_of_cons in H; destruct H as [H|H];
          [inversion H; subst; unfold consistent; repeat split; closed_order|]).
  apply elem_of_nil in H. contradiction.
Qed.

Lemma estimate_consistent (g : generator) :
  unit_samples g -> consistent (fst (estimate g)).
Proof.
  intros H. pose proof (estimate_ranges g H) as R. cbv zeta in R.
  set (r := fst (estimate g)) in *.
  destruct R as ((z & Hz & Hzr) & (Hs0 & Hs1) & (Hd0 & Hd1) & (Hi0 & Hi1) & Hsum
                 & Hl0 & Hl1 & Hl2).
  assert (Hsl : 300 <= shortest_length r).
  { rewrite Hz. change 300 with (inject_Z 300). rewrite <- Zle_Qle. lia. }
  unfold consistent. rewrite Hsum.
  split; [lra|]. split; [exact Hl0|]. split; [lra|]. split; [lra|].
  split; [lra|]. split; [ring|].
  unfold detour_from_lengths.
  set (a := shortest_length r) in *. set (b := shadiest_length r) in *.
  set (dp := detour_pct r) in *.
  unfold Qdiv in Hl1, Hl2. change (/ 100) with (1 # 100) in Hl1, Hl2.
  assert (Hinv : 0 < / a) by (apply Qinv_lt_0_compat; lra).
  assert (Hone : a * / a == 1) by (apply Qmult_inv_r; lra).
  assert (Hthird : / a <= 1 # 300).
  { apply Qle_shift_inv_r; [lra|]. lra. }
  unfold Qdiv.
  assert (E : (b - a) * / a * 100 == b * / a * 100 - 100).
  { transitivity (b * / a * 100 - a * / a * 100); [ring|]. rewrite Hone. ring. }
  rewrite E.
  assert (F : 1 + dp * (1 # 100) == a * (1 + dp * (1 # 100)) * / a).
  { transitivity (a * / a * (1 + dp * (1 # 100))); [|ring]. rewrite Hone. ring. }
  assert (U : b * / a <= 1 + dp * (1 # 100)).
  { rewrite F. apply Qmult_le_compat_r; lra. }
  assert (L : 1 + dp * (1 # 100) < b * / a + / a).
  { assert (G : b * / a + / a == (b + 1) * / a) by ring.
    rewrite F, G. apply Qmult_lt_compat_r; lra. }
  split; lra.
Qed.

Lemma reachable_consistent (g : generator) (s : state) (r : route) :
  unit_samples g -> reachable g s -> result s = Some r -> consistent r.
Proof.
  intros Hg Hr. revert r.
  induction Hr as [|s origin destination scenario Hr IH]; intros r.
  - intros [=].
  - destruct (reachable_invariant g s Hg Hr) as [Hu _].
    destruct (EXAMPLE_ROUTES !! ((origin, destination, scenario) : key)) as [r0|] eqn:E.
    + rewrite (calculate_hit _ _ _ _ _ E). cbn. intros [= <-].
      apply (example_route_consistent _ _ E).
    + rewrite (calculate_miss _ _ _ _ E). cbn [result]. intros [= <-].
      apply (estimate_consistent _ Hu).
Qed.

End DashboardExtras.

Section DashboardExtraTheorems.
Import Py Dashboard DashboardViews.

Lemma efficiency_returns (r : route) : exists e : Q, efficiency r = Ok e.
Proof.
  destruct (Qlt_le_dec 0 (detour_pct r)) as [H|H].
  - rewrite (efficiency_pos r H). eauto.
  - rewrite (efficiency_nonpos r H). eauto.
Qed.








End DashboardExtraTheorems.

Section RendererExtras.
Import Py Dashboard DashboardViews.

Ltac run_bind := cbn [mbind res_bind Py.bind].

(** X4: a click that finds its selection in EXAMPLE_ROUTES leaves the
    generator untouched, so it does not change the estimate a later click
    gets; a click that misses takes exactly four samples. *)
Theorem lookup_leaves_generator (origin destination scenario : string)
    (origin' destination' scenario' : string) (s : state) :
  (is_Some (EXAMPLE_ROUTES !! ((origin, destination, scenario) : key)) ->
   rng (calculate origin destination scenario s) = rng s /\
   result (calculate origin' destination' scenario'
             (calculate origin destination scenario s))
   = result (calculate origin' destination' scenario' s))
  /\
  (EXAMPLE_ROUTES !! ((origin, destination, scenario) : key) = None ->
   forall n : nat, rng (calculate origin destination scenario s) n = rng s (4 + n)%nat).
Proof.
  split.
  - intros [r E]. rewrite (calculate_hit _ _ _ _ _ E).
    split; [reflexivity|].
    destruct (EXAMPLE_ROUTES !! ((origin', destination', scenario') : key))
      as [r'|] eqn:E'.
    + now rewrite !(calculate_hit _ _ _ _ _ E').
    + now rewrite !(calculate_miss _ _ _ _ E').
  - intros E n. rewrite (calculate_miss _ _ _ _ E). cbn [rng].
    now rewrite estimate_eq.
Qed.

Lemma lookup_leaves_generator_witness :
  let g : generator := fun n => 1 # Pos.of_succ_nat (S n) in
  result (calculate "Penn Campus" "34th St" "winter_midday"
            (calculate "Penn Campus" "40th St" "summer_midday" (init g)))
  = result (calculate "Penn Campus" "34th St" "winter_midday" (init g)).
Proof.
  intros g.
  apply (proj1 (lookup_leaves_generator "Penn Campus" "40th St" "summer_midday"
                  "Penn Campus" "34th St" "winter_midday" (init g))).
  eexists. vm_compute. reflexivity.
Defined.

Lemma unguarded_raises (r : route) :
  detour_pct r == 0 ->
  (d ← div (detour_pct r) 100; e ← div (shade_improvement r) d; Ok (Some e))
  = Raise ZeroDivisionError.
Proof.
  intros H. rewrite div_nonzero by (intros E; discriminate E).
  cbn. rewrite div_zero; [reflexivity|]. rewrite H. reflexivity.
Qed.

Lemma unguarded_cases (r : route) :
  (detour_pct r == 0 /\
   (d ← div (detour_pct r) 100; e ← div (shade_improvement r) d; Ok (Some e))
   = Raise ZeroDivisionError)
  \/
  (~ detour_pct r == 0 /\
   (d ← div (detour_pct r) 100; e ← div (shade_improvement r) d; Ok (Some e))
   = Ok (Some (shade_improvement r / (detour_pct r / 100)))).
Proof.
  destruct (Qeq_dec (detour_pct r) 0) as [H|H].
  - left. split; [exact H|apply (unguarded_raises r H)].
  - right. split; [exact H|].
    rewrite div_nonzero by (intros E; discriminate E).
    cbn. rewrite div_nonzero; [reflexivity|].
    intros E. apply H.
    assert (Hd : detour_pct r == detour_pct r / 100 * 100) by field.
    rewrite E in Hd. rewrite Hd. reflexivity.
Qed.

(** X5: whatever the state, the metrics table and the trade-off plot raise
    ZeroDivisionError exactly when a result is stored whose detour is 0;
    with any other detour, negative ones included, both return
    shade_improvement / (detour_pct / 100). *)
Theorem unguarded_division_raises_iff (s : state) :
  (metrics_table s = Raise ZeroDivisionError
   <-> exists r : route, result s = Some r /\ detour_pct r == 0)
  /\
  (tradeoff_plot s = Raise ZeroDivisionError
   <-> exists r : route, result s = Some r /\ detour_pct r == 0)
  /\
  (forall r : route, result s = Some r -> ~ detour_pct r == 0 ->
   metrics_table s = Ok (Some (shade_improvement r / (detour_pct r / 100))) /\
   tradeoff_plot s = Ok (Some (shade_improvement r / (detour_pct r / 100)))).
Proof.
  unfold metrics_table, tradeoff_plot.
  destruct (result s) as [r|].
  - destruct (unguarded_cases r) as [[Hz E]|[Hnz E]]; rewrite E.
    + split; [|split].
      * split; [intros _; eauto|reflexivity].
      * split; [intros _; eauto|reflexivity].
      * intros r' [= <-] Hn. contradiction.
    + split; [|split].
      * split; [discriminate|]. intros [r' [[= <-] Hz]]. contradiction.
      * split; [discriminate|]. intros [r' [[= <-] Hz]]. contradiction.
      * intros r' [= <-] _. split; reflexivity.
  - split; [|split].
    + split; [discriminate|]. intros [r [[=] _]].
    + split; [discriminate|]. intros [r [[=] _]].
    + intros r [=].
Qed.

Lemma unguarded_division_raises_iff_witness :
  let s := {| result := Some {| shortest_length := 315; shortest_shade := 0.41;
                                shadiest_length := 315; shadiest_shade := 0.57;
                                detour_pct := 0; shade_improvement := 0.16 |};
              rng := fun _ => 0; shown := [] |} in
  metrics_table s = Raise ZeroDivisionError.
Proof.
  intros s.
  apply (proj1 (unguarded_division_raises_iff s)).
  eexists. split; [reflexivity|reflexivity].
Defined.

(** X6: the analysis text never divides by zero: with a scenario among the
    six of SCENARIOS it returns in every state, a zero detour included; with
    any other scenario string and a stored result it raises KeyError. *)
Theorem analysis_text_returns (s : state) (scenario : string) :
  (is_Some (SCENARIOS !! scenario) -> exists v, analysis_text s scenario = Ok v)
  /\
  (SCENARIOS !! scenario = None ->
   forall r : route, result s = Some r -> analysis_text s scenario = Raise KeyError).
Proof.
  unfold analysis_text. split.
  - intros [label E]. destruct (result s) as [r|]; [|eauto].
    cbv zeta. rewrite !div_nonzero by (intros H; discriminate H). run_bind.
    rewrite !div_nonzero by (intros H; discriminate H). run_bind.
    destruct (efficiency_returns r) as [e ->]. run_bind.
    rewrite E. cbn [getitem]. run_bind. eauto.
  - intros E r ->.
    cbv zeta. rewrite !div_nonzero by (intros H; discriminate H). run_bind.
    rewrite !div_nonzero by (intros H; discriminate H). run_bind.
    destruct (efficiency_returns r) as [e ->]. run_bind.
    rewrite E. reflexivity.
Qed.

Lemma analysis_text_returns_witness :
  let s := {| result := Some {| shortest_length := 315; shortest_shade := 0.41;
                                shadiest_length := 315; shadiest_shade := 0.57;
                                detour_pct := 0; shade_improvement := 0.16 |};
              rng := fun _ => 0; shown := [] |} in
  (exists v, analysis_text s "winter_evening" = Ok v) /\
  analysis_text s "spring_midday" = Raise KeyError.
Proof.
  intros s. split.
  - apply (proj1 (analysis_text_returns s "winter_evening")).
    eexists. vm_compute. reflexivity.
  - apply (proj2 (analysis_text_returns s "spring_midday")
             ltac:(vm_compute; reflexivity) _ eq_refl).
Defined.

End RendererExtras.

Section PlotExtras.
Import Py Dashboard DashboardViews.

Ltac run_bind := cbn [mbind res_bind Py.bind].

(** X7: in every state a session reaches, the analysis text reports the same
    extra distance, extra minutes, efficiency and rating as the summary, and
    its number of city blocks is the extra distance divided by 80, rounded
    down, never negative. *)
Theorem analysis_agrees_with_summary (g : generator) (s : state)
    (scenario : string) (a : analysis) :
  unit_samples g -> reachable g s ->
  analysis_text s scenario = Ok (Some a) ->
  (exists m : summary,
     results_message s = Ok (Some m) /\
     detour_m m = analysis_detour_m a /\
     detour_min m = analysis_detour_min a /\
     summary_efficiency m = analysis_efficiency a /\
     summary_rating m = analysis_rating a) /\
  (0 <= blocks a)%Z /\
  inject_Z (blocks a) * 80 <= analysis_detour_m a /\
  analysis_detour_m a < (inject_Z (blocks a) + 1) * 80.
Proof.
  intros Hg Hr H. unfold analysis_text in H. unfold results_message.
  destruct (result s) as [r|] eqn:Er; [|discriminate H].
  pose proof (reachable_consistent g s r Hg Hr Er) as (_ & Hlen & _).
  cbv zeta in *.
  apply bind_Ok in H as [d [Hd H]]. rewrite Hd. run_bind.
  apply bind_Ok in H as [dm [Hdm H]]. rewrite Hdm. run_bind.
  apply bind_Ok in H as [e [He H]]. rewrite He. run_bind.
  apply bind_Ok in H as [label [_ H]].
  apply bind_Ok in H as [b [Hb H]].
  injection H as <-. cbn [analysis_detour_m analysis_detour_min
                           analysis_efficiency analysis_rating blocks].
  split.
  - rewrite (rating_agree e).
    destruct (results_message_rating e) as [rt c]. eexists.
    split; [reflexivity|]. cbn. repeat split; reflexivity.
  - apply div_inv in Hb as [_ ->].
    set (dm' := shadiest_length r - shortest_length r) in *.
    assert (H0 : 0 <= dm') by (unfold dm'; lra).
    assert (Hq : 0 <= dm' / 80).
    { unfold Qdiv. change (/ 80) with (1 # 80). lra. }
    rewrite (int_floor _ Hq).
    pose proof (Qfloor_le (dm' / 80)) as Hle.
    pose proof (Qlt_floor (dm' / 80)) as Hlt.
    rewrite inject_Z_plus in Hlt. change (inject_Z 1) with 1 in Hlt.
    split; [rewrite <- (Qfloor_Z 0); apply Qfloor_resp_le; exact Hq|].
    set (f := inject_Z (Qfloor (dm' / 80))) in *.
    unfold Qdiv in Hle, Hlt. change (/ 80) with (1 # 80) in Hle, Hlt.
    split; lra.
Qed.

Lemma analysis_agrees_with_summary_witness :
  let g : generator := fun n => 1 # Pos.of_succ_nat (S n) in
  let s := calculate "Clark Park" "46th St" "summer_morning" (init g) in
  exists a : analysis,
    analysis_text s "summer_morning" = Ok (Some a) /\
    inject_Z (blocks a) * 80 <= analysis_detour_m a /\
    analysis_detour_m a < (inject_Z (blocks a) + 1) * 80.
Proof.
  intros g s.
  assert (Hg : unit_samples g).
  { intros n. unfold g, Qle, Qlt. cbn. lia. }
  assert (Hr : reachable g s) by (unfold s; repeat constructor).
  eexists. split; [vm_compute; reflexivity|].
  exact (proj2 (proj2 (analysis_agrees_with_summary g s "summer_morning" _ Hg Hr
                         ltac:(vm_compute; reflexivity)))).
Defined.

Lemma max_bounds (a b : Q) : a <= max a b /\ b <= max a b.
Proof.
  unfold max. destruct (Qltb a b) eqn:E.
  - apply Qltb_lt in E. split; lra.
  - apply Qltb_ge in E. split; lra.
Qed.

(** X8: for a result with a detour and an improvement that are not negative,
    the point of the trade-off plot and the place of its annotation text lie
    within the limits the plot sets for its axes. *)
Theorem tradeoff_point_inside_axes (r : route) :
  0 <= detour_pct r -> 0 <= shade_improvement r ->
  let t := tradeoff_axes r in
  (fst (xlim t) <= fst (point t) /\ fst (point t) <= snd (xlim t)) /\
  (fst (ylim t) <= snd (point t) /\ snd (point t) <= snd (ylim t)) /\
  (fst (xlim t) <= fst (xytext t) /\ fst (xytext t) <= snd (xlim t)) /\
  (fst (ylim t) <= snd (xytext t) /\ snd (xytext t) <= snd (ylim t)).
Proof.
  intros Hd Hi. cbv zeta. unfold tradeoff_axes. cbn [xlim ylim point xytext fst snd].
  destruct (max_bounds 20 (detour_pct r + 5)) as [_ Hx].
  destruct (max_bounds 50 (shade_improvement r * 100 + 10)) as [_ Hy].
  repeat split; lra.
Qed.

Lemma tradeoff_point_inside_axes_witness :
  let t := tradeoff_axes Examples.end_to_end in
  fst (point t) <= snd (xlim t) /\ snd (xytext t) <= snd (ylim t).
Proof.
  destruct (tradeoff_point_inside_axes Examples.end_to_end
              ltac:(discriminate) ltac:(discriminate))
    as ((_ & Hx) & _ & _ & (_ & Hy)).
  split; [exact Hx|exact Hy].
Defined.

(** X9: the rating never goes down when the efficiency goes up. *)
Theorem rating_monotone (e1 e2 : Q) :
  e1 <= e2 ->
  (rank (analysis_text_rating e1) <= rank (analysis_text_rating e2))%nat /\
  (rank (fst (results_message_rating e1)) <= rank (fst (results_message_rating e2)))%nat.
Proof.
  intros H. rewrite <- !rating_agree.
  assert (G : (rank (analysis_text_rating e1) <= rank (analysis_text_rating e2))%nat).
  { destruct (rating_cases e1) as [[A ->]|[[A [A' ->]]|[[A [A' ->]]|[A ->]]]];
    destruct (rating_cases e2) as [[B ->]|[[B [B' ->]]|[[B [B' ->]]|[B ->]]]];
    cbn [rank]; first [lia | exfalso; lra]. }
  split; exact G.
Qed.

Lemma rating_monotone_witness :
  (rank (analysis_text_rating 1.5) <= rank (analysis_text_rating 2.5))%nat.
Proof.
  exact (proj1 (rating_monotone 1.5 2.5 ltac:(discriminate))).
Defined.

End PlotExtras.

(** * Further properties of the route calculator *)

Section WalkFacts.
Import Py Walks.

Lemma reach_mono (n m : nat) (pred : gmap Z Z) (source : Z) :
  (n <= m)%nat -> forall v : Z, reach n pred source v -> reach m pred source v.
Proof.
  revert m. induction n as [|n IH]; intros m Hle v H.
  - destruct H as [H|[]]. destruct m; left; exact H.
  - destruct m as [|m]; [lia|].
    destruct H as [H|[u [Hu H]]]; [left; exact H|].
    right. exists u. split; [exact Hu|]. apply IH; [lia|exact H].
Qed.

(** A new link at a node that is not settled does not touch the links the
    settled nodes follow. *)
Lemma reach_insert (pred : gmap Z Z) (seen : gset Z) (source v u : Z) :
  (forall x y : Z, pred !! x = Some y -> y ∈ seen) ->
  v ∉ seen ->
  forall (n : nat) (w : Z),
    w ∈ seen -> reach n pred source w -> reach n (<[v:=u]> pred) source w.
Proof.
  intros Hp Hv. induction n as [|n IH]; intros w Hw H.
  - destruct H as [H|[]]. left. exact H.
  - destruct H as [H|[y [Hy H]]]; [left; exact H|].
    right. exists y. split.
    + rewrite lookup_insert_ne; [exact Hy|]. intros ->. contradiction.
    + apply IH; [apply (Hp _ _ Hy)|exact H].
Qed.

Lemma extract_min_spec (dist : gmap Z Q) (seen : gset Z) (u : Z) (du : Q) :
  Nx.extract_min dist seen = Some (u, du) -> dist !! u = Some du /\ u ∉ seen.
Proof.
  unfold Nx.extract_min.
  assert (H : forall vd, vd ∈ map_to_list dist -> dist !! fst vd = Some (snd vd)).
  { intros [v d] Hin. now apply elem_of_map_to_list in Hin. }
  revert H. generalize (map_to_list dist). intros l.
  induction l as [|[v d] l IH]; intros Hl; cbn [foldr].
  - discriminate.
  - set (best := foldr _ None l) in *.
    assert (Hbest : best = Some (u, du) -> dist !! u = Some du /\ u ∉ seen).
    { apply IH. intros vd Hin. apply Hl. now right. }
    cbn [fst snd].
    destruct (bool_decide (v ∈ seen)) eqn:Ev; [exact Hbest|].
    apply bool_decide_eq_false_1 in Ev.
    assert (Hv : Some (v, d) = Some (u, du) -> dist !! u = Some du /\ u ∉ seen).
    { intros [= <- <-]. split; [|exact Ev]. apply (Hl (v, d)). now left. }
    destruct best as [b|]; [|exact Hv].
    destruct (Qle_bool d (snd b)); [exact Hv|exact Hbest].
Qed.

End WalkFacts.

Section SearchInvariant.
Import Py Walks.

Variable G : Nx.graph.
Variable source : Z.
Variable weight : string.

Lemma invariant_start :
  source ∈ dom (Nx.node G) -> invariant G source {[source := 0]} ∅ ∅.
Proof.
  intros Hs. split.
  - intros v u H. rewrite lookup_empty in H. discriminate.
  - intros v H. left. rewrite dom_singleton_L in H. now apply elem_of_singleton in H.
  - intros v H. now apply not_elem_of_empty in H.
  - intros _. split.
    + intros v H. rewrite dom_singleton_L in H.
      apply elem_of_singleton in H. now subst.
    + intros v H. now apply not_elem_of_empty in H.
Qed.

(** Settling the popped node [u]. *)
Lemma invariant_settle (dist : gmap Z Q) (pred : gmap Z Z) (seen : gset Z) (u : Z) :
  invariant G source dist pred seen ->
  u ∈ dom dist -> u ∉ seen ->
  invariant G source dist pred ({[u]} ∪ seen).
Proof.
  intros [Hp Hd Hs Hn] Hu Hnew.
  assert (Hsize : size ({[u]} ∪ seen) = S (size seen)).
  { rewrite size_union by (apply disjoint_singleton_l; exact Hnew).
    now rewrite size_singleton. }
  split.
  - intros v w H. destruct (Hp v w H) as [Hj Hw].
    split; [exact Hj|apply elem_of_union_r; exact Hw].
  - exact Hd.
  - intros v Hv. rewrite Hsize. apply elem_of_union in Hv as [Hv|Hv].
    + apply elem_of_singleton in Hv. subst v.
      destruct (Hd u Hu) as [->|[p Hpu]]; [left; reflexivity|].
      right. exists p. split; [exact Hpu|].
      apply Hs. apply (Hp _ _ Hpu).
    + apply (reach_mono (size seen)); [lia|]. apply (Hs v Hv).
  - intros Hc. destruct (Hn Hc) as [Hn1 Hn2]. split; [exact Hn1|].
    intros v Hv. apply elem_of_union in Hv as [Hv|Hv].
    + apply elem_of_singleton in Hv. subst v. apply (Hn1 u Hu).
    + apply (Hn2 v Hv).
Qed.

(** One relaxation out of the settled node [u]. *)
Lemma invariant_relax (seen : gset Z) (u : Z) (du : Q)
    (m : gmap Z (gmap Z (gmap string Q))) (st : gmap Z Q * gmap Z Z)
    (e : Z * gmap Z (gmap string Q)) :
  Nx.adj G !! u = Some m -> m !! fst e = Some (snd e) -> u ∈ seen ->
  invariant G source (fst st) (snd st) seen ->
  invariant G source (fst (Nx.relax weight seen u du st e))
                     (snd (Nx.relax weight seen u du st e)) seen.
Proof.
  intros Hu He Hin Hinv. destruct e as [v d]. cbn [fst snd] in He.
  unfold Nx.relax.
  destruct (bool_decide (v ∈ seen)) eqn:Ev; [exact Hinv|].
  apply bool_decide_eq_false_1 in Ev.
  destruct (Nx.weight_function weight d) as [w|]; [|exact Hinv].
  assert (Hnew : invariant G source (<[v:=du + w]> (fst st)) (<[v:=u]> (snd st)) seen).
  { destruct Hinv as [Hp Hd Hs Hn]. split.
    - intros x y H. destruct (decide (v = x)) as [<-|Hne].
      + rewrite lookup_insert_eq in H. injection H as <-.
        split; [exists m, d; split; assumption|exact Hin].
      + rewrite lookup_insert_ne in H by exact Hne. apply (Hp x y H).
    - intros x Hx. destruct (decide (v = x)) as [<-|Hne].
      + right. rewrite lookup_insert_eq. eauto.
      + rewrite lookup_insert_ne by exact Hne.
        apply Hd. rewrite dom_insert_L in Hx.
        apply elem_of_union in Hx as [Hx|Hx]; [|exact Hx].
        apply elem_of_singleton in Hx. congruence.
    - intros x Hx. apply (reach_insert _ seen); [|exact Ev|exact Hx|apply (Hs x Hx)].
      intros a b Hab. apply (Hp a b Hab).
    - intros Hc. destruct (Hn Hc) as [Hn1 Hn2]. split; [|exact Hn2].
      intros x Hx. rewrite dom_insert_L in Hx.
      apply elem_of_union in Hx as [Hx|Hx]; [|apply (Hn1 x Hx)].
      apply elem_of_singleton in Hx. subst x.
      apply (Hc u v m d Hu He). }
  destruct (fst st !! v) as [old|]; [|exact Hnew].
  destruct (Qltb (du + w) old); [exact Hnew|exact Hinv].
Qed.

Lemma invariant_relax_all (seen : gset Z) (u : Z) (du : Q)
    (m : gmap Z (gmap Z (gmap string Q))) (l : list (Z * gmap Z (gmap string Q))) :
  Nx.adj G !! u = Some m -> u ∈ seen ->
  (forall e, e ∈ l -> m !! fst e = Some (snd e)) ->
  forall st : gmap Z Q * gmap Z Z,
    invariant G source (fst st) (snd st) seen ->
    invariant G source (fst (foldl (Nx.relax weight seen u du) st l))
                       (snd (foldl (Nx.relax weight seen u du) st l)) seen.
Proof.
  intros Hu Hin. induction l as [|e l IH]; intros Hl st Hinv; cbn [foldl].
  - exact Hinv.
  - apply IH.
    + intros e' He'. apply Hl. now right.
    + apply (invariant_relax seen u du m st e Hu); [apply Hl; now left|exact Hin|exact Hinv].
Qed.

(** The links a search returns join stored steps, and lead from the target
    back to the source in a number of steps that, on a closed graph, the
    number of nodes bounds. *)
Lemma search_links (target : Z) (fuel : nat) :
  source <> target ->
  forall (dist : gmap Z Q) (pred pred' : gmap Z Z) (seen : gset Z),
    invariant G source dist pred seen ->
    Nx.search fuel G weight target dist pred seen = Some pred' ->
    (forall v u : Z, pred' !! v = Some u -> joined G u v) /\
    exists n : nat,
      reach n pred' source target /\
      (closed G -> (n <= size (Nx.node G))%nat).
Proof.
  intros Hst. induction fuel as [|fuel IH]; intros dist pred pred' seen Hinv H.
  - discriminate H.
  - cbn [Nx.search] in H.
    destruct (Nx.extract_min dist seen) as [[u du]|] eqn:Emin; [|discriminate H].
    apply extract_min_spec in Emin as [Hdu Hnew].
    assert (Hdom : u ∈ dom dist) by (apply elem_of_dom; eauto).
    pose proof (invariant_settle dist pred seen u Hinv Hdom Hnew) as Hinv'.
    destruct (bool_decide (u = target)) eqn:Et.
    + apply bool_decide_eq_true_1 in Et. subst u. injection H as <-.
      split; [intros v u Hvu; apply (inv_pred _ _ _ _ _ Hinv v u Hvu)|].
      exists (size ({[target]} ∪ seen)). split.
      * apply (inv_seen _ _ _ _ _ Hinv').
        apply elem_of_union_l, elem_of_singleton. reflexivity.
      * intros Hc. rewrite <- size_dom. apply subseteq_size.
        intros x Hx. apply (proj2 (inv_node _ _ _ _ _ Hinv' Hc) x Hx).
    + cbv zeta in H. eapply IH; [|exact H]. clear IH H.
      destruct (Nx.adj G !! u) as [m|] eqn:Eu.
      * apply (invariant_relax_all _ u du m);
          [exact Eu|apply elem_of_union_l, elem_of_singleton; reflexivity| |exact Hinv'].
        intros [v d] Hin. cbn [default from_option id] in Hin.
        now apply elem_of_map_to_list in Hin.
      * cbn [default from_option]. rewrite map_to_list_empty. exact Hinv'.
Qed.

End SearchInvariant.

Section PathFacts.
Import Py Walks.

Lemma linked_cons (P : Z -> Z -> Prop) (a b : Z) (l : list Z) :
  linked P (a :: b :: l) <-> P a b /\ linked P (b :: l).
Proof. reflexivity. Qed.

Lemma walk_back_linked (P : Z -> Z -> Prop) (pred : gmap Z Z) (source : Z) :
  (forall v u : Z, pred !! v = Some u -> P u v) ->
  forall (fuel : nat) (v : Z) (acc : list Z),
    linked P (v :: acc) -> linked P (Nx.walk_back fuel pred source v acc).
Proof.
  intros Hp. induction fuel as [|fuel IH]; intros v acc H; cbn [Nx.walk_back].
  - destruct (bool_decide (v = source)); exact H.
  - destruct (bool_decide (v = source)); [exact H|].
    destruct (pred !! v) as [p|] eqn:E; [|exact H].
    apply IH. apply linked_cons. split; [apply (Hp _ _ E)|exact H].
Qed.

Lemma walk_back_last (pred : gmap Z Z) (source : Z) :
  forall (fuel : nat) (v : Z) (acc : list Z),
    last (Nx.walk_back fuel pred source v acc) = last (v :: acc).
Proof.
  induction fuel as [|fuel IH]; intros v acc; cbn [Nx.walk_back].
  - destruct (bool_decide (v = source)); reflexivity.
  - destruct (bool_decide (v = source)); [reflexivity|].
    destruct (pred !! v) as [p|]; [|reflexivity].
    rewrite IH. now destruct acc.
Qed.

Lemma walk_back_head (pred : gmap Z Z) (source : Z) :
  forall (n fuel : nat) (v : Z) (acc : list Z),
    reach n pred source v -> (n <= fuel)%nat ->
    head (Nx.walk_back fuel pred source v acc) = Some source.
Proof.
  induction n as [|n IH]; intros fuel v acc H Hle.
  - destruct H as [->|[]].
    destruct fuel; cbn [Nx.walk_back]; now rewrite bool_decide_eq_true_2.
  - destruct fuel as [|fuel]; [lia|]. cbn [Nx.walk_back].
    destruct (bool_decide (v = source)) eqn:E.
    + apply bool_decide_eq_true_1 in E. now subst.
    + apply bool_decide_eq_false_1 in E.
      destruct H as [H|[u [Hu H]]]; [contradiction|].
      rewrite Hu. apply IH; [exact H|lia].
Qed.

(** What [nx.shortest_path] returns ends at the target and steps along
    stored edges; on a closed graph it starts at the source. *)
Lemma shortest_path_walk (G : Nx.graph) (s t : Z) (weight : string) (p : list Z) :
  Nx.shortest_path G s t weight = Ok p ->
  s ∈ dom (Nx.node G) /\ t ∈ dom (Nx.node G) /\
  last p = Some t /\ linked (joined G) p /\
  (closed G -> head p = Some s).
Proof.
  unfold Nx.shortest_path.
  destruct (bool_decide (s ∈ dom (Nx.node G))) eqn:Es; [|discriminate].
  destruct (bool_decide (t ∈ dom (Nx.node G))) eqn:Et; [|discriminate].
  apply bool_decide_eq_true_1 in Es, Et. cbn [negb].
  destruct (bool_decide (s = t)) eqn:Est.
  - apply bool_decide_eq_true_1 in Est. subst t. intros [= <-].
    repeat split; assumption || reflexivity || exact I.
  - apply bool_decide_eq_false_1 in Est. cbv zeta.
    destruct (Nx.search _ G weight t _ _ _) as [pred|] eqn:E; [|discriminate].
    intros [= <-].
    apply (search_links G s weight t _ Est _ _ _ _ (invariant_start G s Es)) in E.
    destruct E as [Hj [n [Hr Hn]]].
    split; [exact Es|]. split; [exact Et|].
    split; [apply (walk_back_last pred s (S (size (Nx.node G))))|].
    split.
    + apply (walk_back_linked _ pred s Hj (S (size (Nx.node G)))). exact I.
    + intros Hc. apply (walk_back_head pred s n (S (size (Nx.node G)))); [exact Hr|].
      specialize (Hn Hc). lia.
Qed.

Lemma linked_nodes (G : Nx.graph) (p : list Z) (t : Z) :
  closed G -> linked (joined G) p -> last p = Some t -> t ∈ dom (Nx.node G) ->
  Forall (fun v => v ∈ dom (Nx.node G)) p.
Proof.
  intros Hc. induction p as [|a p IH]; intros Hl Ht Hin; [constructor|].
  destruct p as [|b p].
  - injection Ht as ->. repeat constructor. exact Hin.
  - apply linked_cons in Hl as [(m & d & Hm & Hd) Hl].
    constructor; [apply (Hc a b m d Hm Hd)|].
    apply IH; [exact Hl|exact Ht|exact Hin].
Qed.

End PathFacts.

Section CalculateExtras.
Import Py App AppViews Walks.

Variable nearest_nodes : Nx.graph -> Q -> Q -> Z.

Ltac run_bind := cbn [mbind res_bind Py.bind].






End CalculateExtras.

Section GraphChecks.
Import Walks.

Lemma closed_check (G : Nx.graph) :
  map_Forall (fun (u : Z) (m : gmap Z (gmap Z (gmap string Q))) =>
    map_Forall (fun (v : Z) (_ : gmap Z (gmap string Q)) =>
      u ∈ dom (Nx.node G) /\ v ∈ dom (Nx.node G)) m) (Nx.adj G) ->
  closed G.
Proof.
  intros H u v m d Hm Hd. exact (H u m Hm v d Hd).
Qed.


Lemma two_components_closed : closed Examples.two_components.
Proof.
  apply closed_check. refine (bool_decide_eq_true_1 _ _). vm_compute. reflexivity.
Qed.


End GraphChecks.

Section RouteExtras.
Import Py App AppViews Walks.

Variable nearest_nodes : Nx.graph -> Q -> Q -> Z.

Ltac run_bind := cbn [mbind res_bind Py.bind].

(** X10: on a graph whose stored steps end at nodes of the graph, both paths
    of a returned result are walks of the graph from the node the origin
    snaps to, to the node the destination stop snaps to. *)
Theorem paths_are_walks (lat lon : Q) (n : string) (graph : Nx.graph)
    (septa_df : list stop) (r : results) :
  closed graph ->
  returned (calculate_route_from_coords nearest_nodes lat lon n graph septa_df) = Some r ->
  exists (dest_stop : stop) (others : list stop),
    dest_stops septa_df n = dest_stop :: others /\
    walk graph (nearest_nodes graph lon lat)
      (nearest_nodes graph (geometry_x dest_stop) (geometry_y dest_stop))
      (shortest_path r) /\
    walk graph (nearest_nodes graph lon lat)
      (nearest_nodes graph (geometry_x dest_stop) (geometry_y dest_stop))
      (shadiest_path r).
Proof.
  intros Hc H. apply calculate_returned, calculate_body_inv in H.
  destruct H as (dest_stop & others & ws & wd & Hd & Hp & _ & _ & Hp' & _).
  exists dest_stop, others. split; [exact Hd|].
  apply shortest_path_walk in Hp as (_ & _ & Hlast & Hl & Hh).
  apply shortest_path_walk in Hp' as (_ & _ & Hlast' & Hl' & Hh').
  unfold walk. repeat split; auto.
Qed.

Lemma path_to_coords_nodes (graph : Nx.graph) (path : list Z) :
  Forall (fun v => v ∈ dom (Nx.node graph)) path ->
  exists coords : list (Q * Q),
    path_to_coords path graph = Ok coords /\
    Forall2 (fun v c => Nx.node graph !! v = Some (snd c, fst c)) path coords.
Proof.
  induction 1 as [|v path Hv _ IH]; [exists []; split; [reflexivity|constructor]|].
  apply elem_of_dom in Hv as [[x y] Hxy]. destruct IH as [coords [Hc Hf]].
  exists ((y, x) :: coords). cbn [path_to_coords]. rewrite Hxy. cbn [getitem].
  run_bind. rewrite Hc. run_bind. split; [reflexivity|].
  constructor; [exact Hxy|exact Hf].
Qed.

Lemma path_to_coords_inv (graph : Nx.graph) (path : list Z) :
  forall coords : list (Q * Q),
    path_to_coords path graph = Ok coords ->
    Forall2 (fun v c => Nx.node graph !! v = Some (snd c, fst c)) path coords.
Proof.
  induction path as [|v path IH]; intros coords H.
  - injection H as <-. constructor.
  - cbn [path_to_coords] in H.
    apply bind_Ok in H as [[x y] [Hxy H]].
    apply bind_Ok in H as [cs [Hcs H]]. injection H as <-.
    constructor; [|apply (IH _ Hcs)].
    destruct (Nx.node graph !! v) as [xy|]; [|discriminate Hxy].
    now injection Hxy as ->.
Qed.

Lemma path_to_coords_missing (graph : Nx.graph) (path : list Z) :
  Exists (fun v => v ∉ dom (Nx.node graph)) path ->
  path_to_coords path graph = Raise KeyError.
Proof.
  induction path as [|v path IH]; intros H; [inversion H|].
  cbn [path_to_coords].
  destruct (Nx.node graph !! v) as [xy|] eqn:E; [|reflexivity].
  cbn [getitem]. run_bind.
  rewrite IH; [reflexivity|].
  inversion H as [? ? Hv|? ? Hx]; subst; [|exact Hx].
  exfalso. apply Hv. apply elem_of_dom. eauto.
Qed.

(** X11: [path_to_coords] returns exactly when every node of the path is a
    node of the graph, and raises KeyError otherwise; what it returns has
    one pair per node, the node's [y] first and its [x] second. *)
Theorem path_to_coords_spec (path : list Z) (graph : Nx.graph) :
  (Forall (fun v => v ∈ dom (Nx.node graph)) path <->
   exists coords, path_to_coords path graph = Ok coords)
  /\
  (Exists (fun v => v ∉ dom (Nx.node graph)) path <->
   path_to_coords path graph = Raise KeyError)
  /\
  (forall coords : list (Q * Q),
     path_to_coords path graph = Ok coords ->
     length coords = length path /\
     Forall2 (fun v c => Nx.node graph !! v = Some (snd c, fst c)) path coords).
Proof.
  assert (Hdec : Forall (fun v => v ∈ dom (Nx.node graph)) path
                 \/ Exists (fun v => v ∉ dom (Nx.node graph)) path).
  { induction path as [|v path [IH|IH]].
    - left. constructor.
    - destruct (decide (v ∈ dom (Nx.node graph))) as [Hv|Hv].
      + left. now constructor.
      + right. now constructor.
    - right. now constructor. }
  split; [|split].
  - split.
    + intros H. destruct (path_to_coords_nodes graph path H) as [c [Hc _]]. eauto.
    + intros [c Hc]. destruct Hdec as [H|H]; [exact H|].
      rewrite (path_to_coords_missing graph path H) in Hc. discriminate Hc.
  - split; [apply path_to_coords_missing|].
    intros H. destruct Hdec as [Hf|He]; [|exact He].
    destruct (path_to_coords_nodes graph path Hf) as [c [Hc _]].
    rewrite Hc in H. discriminate H.
  - intros coords H. pose proof (path_to_coords_inv graph path coords H) as F.
    split; [|exact F]. symmetry. apply (Forall2_length _ _ _ F).
Qed.

Lemma path_to_coords_spec_witness :
  (exists coords, path_to_coords [1%Z; 2%Z] Examples.two_components = Ok coords) /\
  path_to_coords [1%Z; 7%Z] Examples.two_components = Raise KeyError.
Proof.
  split.
  - apply (proj1 (proj1 (path_to_coords_spec [1%Z; 2%Z] Examples.two_components))).
    repeat constructor; apply elem_of_dom; eexists; vm_compute; reflexivity.
  - apply (proj1 (proj1 (proj2 (path_to_coords_spec [1%Z; 7%Z] Examples.two_components)))).
    right. left. intros H. apply elem_of_dom in H as [x Hx].
    vm_compute in Hx. discriminate Hx.
Defined.

(** X12: for a result returned on a closed graph, [create_route_map] finds
    the coordinates of both paths: no KeyError, one pair per node, and the
    bounds it fits the map to are not empty. *)
Theorem route_map_lines (lat lon : Q) (n : string) (graph : Nx.graph)
    (septa_df : list stop) (r : results) :
  closed graph ->
  returned (calculate_route_from_coords nearest_nodes lat lon n graph septa_df) = Some r ->
  exists lines : route_lines,
    create_route_map r graph = Ok lines /\
    length (shortest_coords lines) = length (shortest_path r) /\
    length (shadiest_coords lines) = length (shadiest_path r) /\
    all_coords lines = shortest_coords lines ++ shadiest_coords lines /\
    all_coords lines <> [].
Proof.
  intros Hc H. apply calculate_returned, calculate_body_inv in H.
  destruct H as (dest_stop & others & ws & wd & _ & Hp & _ & _ & Hp' & _).
  pose proof (shortest_path_nonempty _ _ _ _ _ Hp) as Hne.
  apply shortest_path_walk in Hp as (_ & Ht & Hlast & Hl & _).
  apply shortest_path_walk in Hp' as (_ & _ & Hlast' & Hl' & _).
  destruct (path_to_coords_nodes graph _ (linked_nodes _ _ _ Hc Hl Hlast Ht))
    as [c [Hcs F]].
  destruct (path_to_coords_nodes graph _ (linked_nodes _ _ _ Hc Hl' Hlast' Ht))
    as [c' [Hcs' F']].
  unfold create_route_map. rewrite Hcs. run_bind. rewrite Hcs'. run_bind.
  eexists. split; [reflexivity|]. cbn [shortest_coords shadiest_coords all_coords].
  apply Forall2_length in F, F'.
  split; [now symmetry|]. split; [now symmetry|]. split; [reflexivity|].
  destruct c; [|discriminate].
  destruct (shortest_path r); [contradiction|discriminate F].
Qed.
End RouteExtras.

Section RouteExtrasSamples.
Import Py App AppViews Walks.

Lemma paths_are_walks_witness :
  exists r : results,
    returned (calculate_route_from_coords Examples.snap 0 0 "East"
                Examples.two_components Examples.stops) = Some r /\
    walk Examples.two_components 1 2 (shortest_path r).
Proof.
  eexists. split; [vm_compute; reflexivity|].
  destruct (paths_are_walks Examples.snap 0 0 "East" Examples.two_components
              Examples.stops _ two_components_closed ltac:(vm_compute; reflexivity))
    as (dest_stop & others & Hd & Hw & _).
  injection Hd as <- _. exact Hw.
Defined.

Lemma route_map_lines_witness :
  exists (r : results) (lines : route_lines),
    returned (calculate_route_from_coords Examples.snap 0 0 "East"
                Examples.two_components Examples.stops) = Some r /\
    create_route_map r Examples.two_components = Ok lines /\
    all_coords lines <> [].
Proof.
  eexists.
  destruct (route_map_lines Examples.snap 0 0 "East" Examples.two_components
              Examples.stops _ two_components_closed ltac:(vm_compute; reflexivity))
    as (lines & Hl & _ & _ & _ & Hne).
  exists lines. split; [vm_compute; reflexivity|]. split; [exact Hl|exact Hne].
Defined.

End RouteExtrasSamples.

Section PageExtras.
Import Py App AppViews Walks.

Variable nearest_nodes : Nx.graph -> Q -> Q -> Z.

Ltac run_bind := cbn [mbind res_bind Py.bind].


(** X14: the efficiency box shows Perfect exactly when the shadiest route is
    not longer than the shortest one; the detour percentage is then not
    positive and the recommendation is to take the shadiest route. *)
Theorem perfect_iff_not_longer (lat lon : Q) (n : string) (graph : Nx.graph)
    (septa_df : list stop) (r : results) :
  returned (calculate_route_from_coords nearest_nodes lat lon n graph septa_df) = Some r ->
  (routing_efficiency r = Perfect <-> shadiest_length_ft r <= shortest_length_ft r)
  /\
  (routing_efficiency r = Perfect ->
   length_increase_pct r <= 0 /\ recommend r = TakeShadiest).
Proof.
  intros H. apply calculate_returned, calculate_body_inv in H.
  destruct H as (dest_stop & others & ws & wd & H).
  do 9 apply proj2 in H. destruct H as (Hft & Hm & _ & Hpct & Hspm).
  assert (Hiff : routing_efficiency r = Perfect
                 <-> shadiest_length_ft r <= shortest_length_ft r).
  { unfold routing_efficiency. rewrite Hm, Hft in Hspm.
    destruct (Qltb 0 ((shadiest_length_ft r - shortest_length_ft r) * 0.3048)) eqn:E.
    - apply Qltb_lt in E. apply bind_Ok in Hspm as [q [_ Hq]]. injection Hq as <-.
      split; [discriminate|]. intros Hle. exfalso. lra.
    - apply Qltb_ge in E. injection Hspm as <-. split; [intros _; lra|reflexivity]. }
  split; [exact Hiff|]. intros Hperfect. apply Hiff in Hperfect.
  assert (Hle : length_increase_pct r <= 0).
  { rewrite Hft in Hpct.
    destruct (Qltb 0 (shortest_length_ft r)) eqn:E.
    - apply Qltb_lt in E. apply bind_Ok in Hpct as [q [Hq Hp]].
      injection Hp as <-. apply div_inv in Hq as [_ ->].
      assert (Hq : (shadiest_length_ft r - shortest_length_ft r) / shortest_length_ft r <= 0).
      { apply Qle_shift_div_r; [exact E|]. lra. }
      lra.
    - injection Hpct as <-. lra. }
  split; [exact Hle|]. unfold recommend.
  assert (Hb : Qltb (length_increase_pct r) 5 = true) by (apply Qltb_lt; lra).
  now rewrite Hb.
Qed.



End PageExtras.

Section PageExtrasSamples.
Import Py App AppViews Walks.


Lemma perfect_iff_not_longer_witness :
  exists r : results,
    returned (calculate_route_from_coords Examples.snap 0 0 "East"
                Examples.two_parallel Examples.stops) = Some r /\
    routing_efficiency r = Perfect /\
    recommend r = TakeShadiest.
Proof.
  eexists. split; [vm_compute; reflexivity|].
  destruct (perfect_iff_not_longer Examples.snap 0 0 "East" Examples.two_parallel
              Examples.stops _ ltac:(vm_compute; reflexivity)) as [Hiff Hrec].
  assert (Hp : routing_efficiency _ = Perfect) by (apply Hiff; discriminate).
  split; [exact Hp|exact (proj2 (Hrec Hp))].
Defined.


End PageExtrasSamples.

Section LabelExtras.
Import Py App AppViews.

Ltac case_ltb x y :=
  let E := fresh "E" in
  destruct (Qltb x y) eqn:E; [apply Qltb_lt in E|apply Qltb_ge in E].

Lemma shade_quality_cases (s : Q) :
  (0.6 < s /\ shade_quality s = QExcellent)
  \/ (0.4 < s /\ s <= 0.6 /\ shade_quality s = QGood)
  \/ (0.2 < s /\ s <= 0.4 /\ shade_quality s = QModerate)
  \/ (s <= 0.2 /\ shade_quality s = QPoor).
Proof.
  unfold shade_quality.
  destruct (Qltb 0.6 s) eqn:E6.
  { apply Qltb_lt in E6. left. split; [exact E6|reflexivity]. }
  apply Qltb_ge in E6.
  destruct (Qltb 0.4 s) eqn:E4.
  { apply Qltb_lt in E4. right; left. split; [exact E4|split; [exact E6|reflexivity]]. }
  apply Qltb_ge in E4.
  destruct (Qltb 0.2 s) eqn:E2.
  { apply Qltb_lt in E2. right; right; left.
    split; [exact E2|split; [exact E4|reflexivity]]. }
  apply Qltb_ge in E2. right; right; right. split; [exact E2|reflexivity].
Qed.

Lemma verdict_cases (r : results) (e : Q) (v : verdict) :
  routing_efficiency r = Tradeoff e v ->
  (0.01 < e /\ v = ExcellentTradeoff)
  \/ (0.005 < e /\ e <= 0.01 /\ v = GoodTradeoff)
  \/ (0.001 < e /\ e <= 0.005 /\ v = FairTradeoff)
  \/ (e <= 0.001 /\ v = MarginalTradeoff).
Proof.
  unfold routing_efficiency.
  destruct (shade_per_meter_detour r) as [q|]; [|discriminate].
  intros [= <- <-].
  destruct (Qltb 0.01 q) eqn:E1.
  { apply Qltb_lt in E1. left. split; [exact E1|reflexivity]. }
  apply Qltb_ge in E1.
  destruct (Qltb 0.005 q) eqn:E2.
  { apply Qltb_lt in E2. right; left. split; [exact E2|split; [exact E1|reflexivity]]. }
  apply Qltb_ge in E2.
  destruct (Qltb 0.001 q) eqn:E3.
  { apply Qltb_lt in E3. right; right; left.
    split; [exact E3|split; [exact E2|reflexivity]]. }
  apply Qltb_ge in E3. right; right; right. split; [exact E3|reflexivity].
Qed.

(** X16: the labels follow the numbers: a higher shade score never gets a
    poorer shade quality, and a higher efficiency per metre never gets a
    poorer verdict. *)
Theorem labels_monotone :
  (forall s1 s2 : Q,
     s1 <= s2 ->
     (quality_rank (shade_quality s1) <= quality_rank (shade_quality s2))%nat)
  /\
  (forall (r1 r2 : results) (e1 e2 : Q) (v1 v2 : verdict),
     routing_efficiency r1 = Tradeoff e1 v1 ->
     routing_efficiency r2 = Tradeoff e2 v2 ->
     e1 <= e2 ->
     (verdict_rank v1 <= verdict_rank v2)%nat).
Proof.
  split.
  - intros s1 s2 H.
    destruct (shade_quality_cases s1) as [[A ->]|[[A [A' ->]]|[[A [A' ->]]|[A ->]]]];
    destruct (shade_quality_cases s2) as [[B ->]|[[B [B' ->]]|[[B [B' ->]]|[B ->]]]];
    cbn [quality_rank]; first [lia | exfalso; lra].
  - intros r1 r2 e1 e2 v1 v2 H1 H2 H.
    destruct (verdict_cases r1 e1 v1 H1) as [[A ->]|[[A [A' ->]]|[[A [A' ->]]|[A ->]]]];
    destruct (verdict_cases r2 e2 v2 H2) as [[B ->]|[[B [B' ->]]|[[B [B' ->]]|[B ->]]]];
    cbn [verdict_rank]; first [lia | exfalso; lra].
Qed.

Lemma labels_monotone_witness :
  (quality_rank (shade_quality 0.3) <= quality_rank (shade_quality 0.7))%nat.
Proof.
  exact (proj1 labels_monotone 0.3 0.7 ltac:(discriminate)).
Defined.

(** X17: what each recommendation tells about the numbers: below 5 percent
    of detour it is always to take the shadiest route; "consider" is given
    only for a detour in [5, 15) with an improvement above 0.15;
    "significant detour" only for a detour in [15, 25) with an improvement
    above 0.25; from 25 percent on, or from 5 percent on with an
    improvement of at most 0.15, it is to stick with the shortest route. *)
Theorem recommendation_by_numbers (r : results) :
  (length_increase_pct r < 5 -> recommend r = TakeShadiest)
  /\
  (recommend r = ConsiderShadiest ->
   5 <= length_increase_pct r /\ length_increase_pct r < 15 /\
   0.15 < shade_improvement r)
  /\
  (recommend r = SignificantDetour ->
   15 <= length_increase_pct r /\ length_increase_pct r < 25 /\
   0.25 < shade_improvement r)
  /\
  (25 <= length_increase_pct r -> recommend r = StickWithShortest)
  /\
  (5 <= length_increase_pct r -> shade_improvement r <= 0.15 ->
   recommend r = StickWithShortest).
Proof.
  unfold recommend.
  case_ltb (length_increase_pct r) 5;
    case_ltb (length_increase_pct r) 15;
    case_ltb (length_increase_pct r) 25;
    case_ltb 0.15 (shade_improvement r);
    case_ltb 0.25 (shade_improvement r);
    cbn [andb];
    repeat split; intros; try discriminate; try reflexivity; try lra.
Qed.

Lemma recommendation_by_numbers_witness :
  exists r : results,
    returned (calculate_route_from_coords Examples.snap 0 0 "East"
                Examples.single_edge Examples.stops) = Some r /\
    recommend r = TakeShadiest.
Proof.
  eexists. split; [vm_compute; reflexivity|].
  apply (proj1 (recommendation_by_numbers _)). reflexivity.
Defined.

End LabelExtras.

Section ColourExtras.
Import Py AppViews.

Lemma string_length_app (s1 s2 : string) :
  String.length (s1 ++ s2)%string = (String.length s1 + String.length s2)%nat.
Proof.
  induction s1 as [|c s1 IH]; [reflexivity|].
  simpl. f_equal. exact IH.
Qed.

Lemma format_02x_byte (n : Z) :
  (0 <= n <= 255)%Z -> String.length (format_02x n) = 2%nat.
Proof.
  intros H.
  assert (A : forallb (fun k => Nat.eqb (String.length (format_02x (Z.of_nat k))) 2)
                      (seq 0 256) = true) by (vm_compute; reflexivity).
  rewrite forallb_forall in A.
  specialize (A (Z.to_nat n)). rewrite Z2Nat.id in A by lia.
  apply Nat.eqb_eq, A, in_seq. lia.
Qed.

Lemma floor_pair (x y : Q) (k : Z) :
  0 <= x -> 0 <= y -> x + y == inject_Z k ->
  (0 <= Qfloor x)%Z /\ (0 <= Qfloor y)%Z /\
  (Qfloor x + Qfloor y = k \/ Qfloor x + Qfloor y = k - 1)%Z.
Proof.
  intros Hx Hy Hk.
  pose proof (Qfloor_le x) as Lx. pose proof (Qfloor_le y) as Ly.
  pose proof (Qlt_floor x) as Ux. pose proof (Qlt_floor y) as Uy.
  rewrite inject_Z_plus in Ux, Uy. change (inject_Z 1) with 1 in Ux, Uy.
  assert (H0x : (0 <= Qfloor x)%Z).
  { rewrite <- (Qfloor_Z 0). now apply Qfloor_resp_le. }
  assert (H0y : (0 <= Qfloor y)%Z).
  { rewrite <- (Qfloor_Z 0). now apply Qfloor_resp_le. }
  assert (Hle : (Qfloor x + Qfloor y <= k)%Z).
  { rewrite Zle_Qle, inject_Z_plus. lra. }
  assert (Hgt : (k - 2 < Qfloor x + Qfloor y)%Z).
  { rewrite Zlt_Qlt, inject_Z_plus. unfold Z.sub. rewrite inject_Z_plus.
    change (inject_Z (- (2))) with (- (2)). lra. }
  split; [exact H0x|]. split; [exact H0y|]. lia.
Qed.

(** X18: for a shade score in [0, 1] the colour of a background edge is
    well formed: seven characters, a red and a green channel in 0..255 that
    add up to 255 or 254, and no blue. *)
Theorem edge_color_well_formed (shade_score : Q) :
  0 <= shade_score -> shade_score <= 1 ->
  let red := int (255 * (1 - shade_score)) in
  let green := int (255 * shade_score) in
  String.length (edge_color shade_score) = 7%nat /\
  (0 <= red <= 255)%Z /\ (0 <= green <= 255)%Z /\
  (red + green = 255 \/ red + green = 254)%Z.
Proof.
  intros H0 H1. cbv zeta.
  assert (Hr : 0 <= 255 * (1 - shade_score)) by lra.
  assert (Hg : 0 <= 255 * shade_score) by lra.
  rewrite (int_floor _ Hr), (int_floor _ Hg).
  destruct (floor_pair (255 * (1 - shade_score)) (255 * shade_score) 255 Hr Hg)
    as (Hr0 & Hg0 & Hsum); [change (inject_Z 255) with 255; ring|].
  assert (Hbr : (0 <= Qfloor (255 * (1 - shade_score)) <= 255)%Z) by lia.
  assert (Hbg : (0 <= Qfloor (255 * shade_score) <= 255)%Z) by lia.
  split; [|split; [exact Hbr|split; [exact Hbg|lia]]].
  unfold edge_color. rewrite (int_floor _ Hr), (int_floor _ Hg).
  cbn [String.length]. rewrite !string_length_app.
  rewrite (format_02x_byte _ Hbr), (format_02x_byte _ Hbg). reflexivity.
Qed.

Lemma edge_color_well_formed_witness :
  String.length (edge_color 0.5) = 7%nat.
Proof.
  exact (proj1 (edge_color_well_formed 0.5 ltac:(discriminate) ltac:(discriminate))).
Defined.

End ColourExtras.

(** * Properties of the statistics of the figures *)

Section StatisticsExtras.
Import Py Visualizations.







Lemma classify_cases (x : Q) :
  (classify x = None /\ (x <= 0 \/ 1 < x))
  \/ (classify x = Some VeryLow /\ 0 < x /\ x <= 0.2)
  \/ (classify x = Some Low /\ 0.2 < x /\ x <= 0.4)
  \/ (classify x = Some Moderate /\ 0.4 < x /\ x <= 0.6)
  \/ (classify x = Some High /\ 0.6 < x /\ x <= 0.8)
  \/ (classify x = Some VeryHigh /\ 0.8 < x /\ x <= 1).
Proof.
  unfold classify, cut.
  repeat match goal with
  | |- context [Qltb ?a x] =>
      let E := fresh "E" in
      destruct (Qltb a x) eqn:E; [apply Qltb_lt in E|apply Qltb_ge in E]
  | |- context [Qle_bool x ?b] =>
      let E := fresh "E" in
      destruct (Qle_bool x b) eqn:E; [apply Qle_bool_iff in E|apply Qle_bool_gt in E]
  end; cbn [andb];
  first [ left; split; [reflexivity|lra]
        | right; left; split; [reflexivity|lra]
        | right; right; left; split; [reflexivity|lra]
        | right; right; right; left; split; [reflexivity|lra]
        | right; right; right; right; left; split; [reflexivity|lra]
        | right; right; right; right; right; split; [reflexivity|lra]
        | exfalso; lra ].
Qed.

(** X20: the corridors map classifies a shade score exactly when it is above
    0 and at most 1: a segment with shade exactly 0 gets no class; a class
    is never lower for a higher score. *)
Theorem shade_classes (x y : Q) :
  (is_Some (classify x) <-> 0 < x /\ x <= 1)
  /\
  (x == 0 -> classify x = None)
  /\
  (forall c d : shade_class,
     classify x = Some c -> classify y = Some d -> x <= y ->
     (class_rank c <= class_rank d)%nat).
Proof.
  split; [|split].
  - destruct (classify_cases x) as [[-> H]|[[-> H]|[[-> H]|[[-> H]|[[-> H]|[-> H]]]]]];
      (split; [intros [c Hc]; first [discriminate Hc | lra] | intros Hx; first [eexists; reflexivity | exfalso; lra]]).
  - intros H.
    destruct (classify_cases x) as [[-> _]|[[_ H']|[[_ H']|[[_ H']|[[_ H']|[_ H']]]]]];
      first [reflexivity | exfalso; lra].
  - intros c d Hc Hd Hxy.
    destruct (classify_cases x) as [[E H]|[[E H]|[[E H]|[[E H]|[[E H]|[E H]]]]]];
      rewrite E in Hc; try discriminate Hc; injection Hc as <-;
    destruct (classify_cases y) as [[F K]|[[F K]|[[F K]|[[F K]|[[F K]|[F K]]]]]];
      rewrite F in Hd; try discriminate Hd; injection Hd as <-;
      cbn [class_rank]; first [lia | exfalso; lra].
Qed.

Lemma shade_classes_witness :
  classify 0 = None /\ is_Some (classify 0.2).
Proof.
  split.
  - apply (proj1 (proj2 (shade_classes 0 0))). reflexivity.
  - apply (proj1 (shade_classes 0.2 0.2)). split; [reflexivity|discriminate].
Defined.

End StatisticsExtras.
